(** * MrcnnTrainedModel: the loader of zegami_sdk/trained_model/mrcnn_trained_model.py

    A shallow embedding of [MrcnnTrainedModel.load_config],
    [MrcnnTrainedModel.load_model] and [MrcnnTrainedModel.__init__].

    The loader is glue code: it looks at the file system ([os.path.exists],
    [glob]), calls into external code (importlib, the executed configuration
    module, the Mask R-CNN library) and writes a few attributes.  The
    embedding has three layers:

    - [Posix]: path strings, a directory tree, and the standard library's
      [os.path.join], [os.path.split], [os.path.exists], [fnmatch] and
      [glob.glob] over that tree;
    - [Py]: values, exceptions, the external calls and the monad the methods
      run in (environment, state, exceptions, a log of external calls);
    - [Mrcnn]: the three methods, statement by statement.

    [Observations] holds what the properties are stated with (the log of a
    run, the calls of a run in which nothing raises, the documentation's
    words as definitions), [Scenarios] concrete save directories and a
    concrete library; the lemmas follow in [PosixFacts], [PyFacts] and
    [MrcnnFacts], the properties of the loader in [Loader]. *)

From stdpp Require Import gmap strings list.
From Stdlib Require Import Ascii String.

Open Scope string_scope.
Set Warnings "-register-all".

(* ===================================================================== *)
(** ** POSIX paths, directory trees and glob *)
(* ===================================================================== *)

Module Posix.

(** *** Strings *)

Definition sep : ascii := "/"%char.

Definition is_empty (s : string) : bool :=
  match s with EmptyString => true | String _ _ => false end.

(** [s.startswith(p)] *)
Fixpoint startswith (p s : string) : bool :=
  match p, s with
  | EmptyString, _ => true
  | String a p', String b s' => Ascii.eqb a b && startswith p' s'
  | String _ _, EmptyString => false
  end.

(** [s.endswith("/")] *)
Fixpoint ends_with_sep (s : string) : bool :=
  match s with
  | EmptyString => false
  | String c EmptyString => Ascii.eqb c sep
  | String _ r => ends_with_sep r
  end.

(** [s == "/" * len(s)] *)
Fixpoint all_seps (s : string) : bool :=
  match s with
  | EmptyString => true
  | String c r => Ascii.eqb c sep && all_seps r
  end.

(** [s.rstrip("/")] *)
Fixpoint rstrip_sep (s : string) : string :=
  match s with
  | EmptyString => EmptyString
  | String c r =>
      match rstrip_sep r with
      | EmptyString => if Ascii.eqb c sep then EmptyString else String c EmptyString
      | r' => String c r'
      end
  end.

(** [i = p.rfind("/") + 1; (p[:i], p[i:])], or [None] when [p] has no
    separator (then [i = 0]). *)
Fixpoint cut_at_last_sep (p : string) : option (string * string) :=
  match p with
  | EmptyString => None
  | String c r =>
      match cut_at_last_sep r with
      | Some (h, t) => Some (String c h, t)
      | None => if Ascii.eqb c sep then Some (String c EmptyString, r) else None
      end
  end.

(** posixpath.split *)
Definition os_path_split (p : string) : string * string :=
  let '(head, tail) :=
    match cut_at_last_sep p with
    | Some ht => ht
    | None => (EmptyString, p)
    end in
  if negb (is_empty head) && negb (all_seps head)
  then (rstrip_sep head, tail)
  else (head, tail).

(** posixpath.basename: [p[p.rfind("/") + 1:]] *)
Definition os_path_basename (p : string) : string :=
  match cut_at_last_sep p with
  | Some (_, t) => t
  | None => p
  end.

(** posixpath.join, two arguments *)
Definition os_path_join (a b : string) : string :=
  if startswith "/" b then b
  else if is_empty a || ends_with_sep a then a +:+ b
  else a +:+ "/" +:+ b.

(** [s.split("/")] *)
Fixpoint split_sep (s : string) : list string :=
  match s with
  | EmptyString => [EmptyString]
  | String c r =>
      if Ascii.eqb c sep then EmptyString :: split_sep r
      else match split_sep r with
           | h :: t => String c h :: t
           | [] => [String c EmptyString]
           end
  end.

(** *** The directory tree

    A directory lists its entries in the order [os.scandir] returns them;
    that order is the file system's, not an alphabetical one.  Entry names
    are plain names (no separator, not empty, not "." or "..") and unique
    within a directory.  There are no symbolic links. *)

Inductive node : Type :=
| File
| Dir (entries : list (string * node)).

Record filesystem : Type := {
  root : list (string * node);   (* the entries of "/" *)
  cwd : list string              (* the working directory, from the root *)
}.

Definition is_dir (n : node) : bool :=
  match n with Dir _ => true | File => false end.

Fixpoint entry (name : string) (es : list (string * node)) : option node :=
  match es with
  | [] => None
  | (x, n) :: rest => if String.eqb x name then Some n else entry name rest
  end.

(** Path resolution, component by component.  [up] holds the directories
    above [cur], nearest first.  Every component, also an empty one or ".",
    is looked up in a directory. *)
Fixpoint walk (up : list node) (cur : node) (comps : list string) : option node :=
  match comps with
  | [] => Some cur
  | c :: cs =>
      match cur with
      | File => None
      | Dir es =>
          if is_empty c || String.eqb c "." then walk up cur cs
          else if String.eqb c ".." then
            match up with
            | [] => walk [] cur cs
            | p :: up' => walk up' p cs
            end
          else
            match entry c es with
            | Some n => walk (cur :: up) n cs
            | None => None
            end
      end
  end.

Definition resolve (fs : filesystem) (p : string) : option node :=
  match p with
  | EmptyString => None
  | String c r =>
      if Ascii.eqb c sep
      then walk [] (Dir (root fs)) (split_sep r)
      else walk [] (Dir (root fs)) (app (cwd fs) (split_sep p))
  end.

(** os.path.exists (and os.path.lexists: there are no links) *)
Definition os_path_exists (fs : filesystem) (p : string) : bool :=
  match resolve fs p with Some _ => true | None => false end.

(** os.path.isdir *)
Definition os_path_isdir (fs : filesystem) (p : string) : bool :=
  match resolve fs p with Some n => is_dir n | None => false end.

(** *** fnmatch *)

Inductive token : Type :=
| TStar                                  (* "*" *)
| TAny                                   (* "?" *)
| TClass (negated : bool) (set : list ascii)   (* "[...]", "[!...]" *)
| TLit (c : ascii).

(** The characters up to the first "]" and how many they are. *)
Fixpoint scan_close (l : list ascii) : option (list ascii * nat) :=
  match l with
  | [] => None
  | c :: r =>
      if Ascii.eqb c "]" then Some ([], 0)
      else match scan_close r with
           | Some (s, n) => Some (c :: s, S n)
           | None => None
           end
  end.

(** What follows a "[": an optional "!", an optional "]" that belongs to the
    set, then the set up to the closing "]".  Returns the negation flag, the
    set and the number of characters read, the closing "]" included; [None]
    when no "]" closes the set. *)
Definition bracket (l : list ascii) : option (bool * list ascii * nat) :=
  let '(neg, l1, k1) :=
    match l with
    | c :: r => if Ascii.eqb c "!" then (true, r, 1) else (false, l, 0)
    | [] => (false, l, 0)
    end in
  match l1 with
  | c :: r =>
      if Ascii.eqb c "]" then
        match scan_close r with
        | Some (s, n) => Some (neg, c :: s, k1 + 1 + n + 1)
        | None => None
        end
      else
        match scan_close l1 with
        | Some (s, n) => Some (neg, s, k1 + n + 1)
        | None => None
        end
  | [] => None
  end.

(** fnmatch.translate, as tokens; [skip] characters were already read as
    part of a set. *)
Fixpoint tokenize (skip : nat) (pat : list ascii) : list token :=
  match pat with
  | [] => []
  | c :: r =>
      match skip with
      | S k => tokenize k r
      | O =>
          if Ascii.eqb c "*" then TStar :: tokenize 0 r
          else if Ascii.eqb c "?" then TAny :: tokenize 0 r
          else if Ascii.eqb c "[" then
            match bracket r with
            | Some (neg, set, n) => TClass neg set :: tokenize n r
            | None => TLit c :: tokenize 0 r
            end
          else TLit c :: tokenize 0 r
      end
  end.

(** Membership in a set: [a-b] is a range (empty when [a > b]), a "-" that
    is first or last is itself. *)
Fixpoint in_set (c : ascii) (set : list ascii) {struct set} : bool :=
  match set with
  | [] => false
  | a :: rest =>
      match rest with
      | d :: b :: rest' =>
          if Ascii.eqb d "-"
          then ((nat_of_ascii a <=? nat_of_ascii c)%nat
                && (nat_of_ascii c <=? nat_of_ascii b)%nat) || in_set c rest'
          else Ascii.eqb a c || in_set c rest
      | _ => Ascii.eqb a c || in_set c rest
      end
  end.

Fixpoint tmatch (ts : list token) : list ascii -> bool :=
  match ts with
  | [] => fun s => match s with [] => true | _ => false end
  | TStar :: ts' =>
      let rest := tmatch ts' in
      fix star (s : list ascii) : bool :=
        rest s || match s with [] => false | _ :: s' => star s' end
  | TAny :: ts' =>
      fun s => match s with [] => false | _ :: s' => tmatch ts' s' end
  | TClass neg set :: ts' =>
      fun s => match s with
               | [] => false
               | c :: s' => xorb neg (in_set c set) && tmatch ts' s'
               end
  | TLit a :: ts' =>
      fun s => match s with
               | [] => false
               | c :: s' => Ascii.eqb a c && tmatch ts' s'
               end
  end.

(** fnmatch.fnmatch on POSIX (case sensitive) *)
Definition fnmatch (name pat : string) : bool :=
  tmatch (tokenize 0 (list_ascii_of_string pat)) (list_ascii_of_string name).

(** *** glob *)

Definition is_magic_char (c : ascii) : bool :=
  Ascii.eqb c "*" || Ascii.eqb c "?" || Ascii.eqb c "[".

(** glob.has_magic *)
Fixpoint has_magic (s : string) : bool :=
  match s with
  | EmptyString => false
  | String c r => is_magic_char c || has_magic r
  end.

(** glob._ishidden *)
Definition _ishidden (s : string) : bool := startswith "." s.

(** glob._isrecursive *)
Definition _isrecursive (pattern : string) : bool := String.eqb pattern "**".

(** glob._join *)
Definition _join (dirname basename : string) : string :=
  if is_empty dirname || is_empty basename
  then (if is_empty dirname then basename else dirname)
  else os_path_join dirname basename.

Definition names_of (dironly : bool) (es : list (string * node)) : list string :=
  map fst (List.filter (fun e => negb dironly || is_dir (snd e)) es).

(** glob._listdir: the names in [dirname] (in "." when it is empty), only
    the directories when [dironly]; nothing when it cannot be listed. *)
Definition _listdir (fs : filesystem) (dirname : string) (dironly : bool)
  : list string :=
  match resolve fs (if is_empty dirname then "." else dirname) with
  | Some (Dir es) => names_of dironly es
  | _ => []
  end.

(** glob._glob1 *)
Definition _glob1 (fs : filesystem) (dirname pattern : string) (dironly : bool)
  : list string :=
  let names := _listdir fs dirname dironly in
  let names := if _ishidden pattern then names
               else List.filter (fun x => negb (_ishidden x)) names in
  List.filter (fun x => fnmatch x pattern) names.

(** glob._glob0 *)
Definition _glob0 (fs : filesystem) (dirname basename : string) (dironly : bool)
  : list string :=
  if negb (is_empty basename) then
    (if os_path_exists fs (os_path_join dirname basename) then [basename] else [])
  else
    (if os_path_isdir fs dirname then [basename] else []).

(** glob._rlistdir, on the node of the directory it lists: every name that
    is not hidden, followed by what is below it. *)
Fixpoint _rlistdir (dironly : bool) (n : node) : list string :=
  match n with
  | File => []
  | Dir es =>
      (fix below (es : list (string * node)) : list string :=
         match es with
         | [] => []
         | (x, child) :: rest =>
             app
               (if (negb dironly || is_dir child) && negb (_ishidden x)
                then x :: map (os_path_join x) (_rlistdir dironly child)
                else [])
               (below rest)
         end) es
  end.

(** glob._glob2: the directory itself (the empty name), then everything
    below it. *)
Definition _glob2 (fs : filesystem) (dirname pattern : string) (dironly : bool)
  : list string :=
  EmptyString
  :: match resolve fs (if is_empty dirname then "." else dirname) with
     | Some n => _rlistdir dironly n
     | None => []
     end.

(** glob._iglob with [root_dir = None]; every recursive call is on the
    directory part of [pathname], which is shorter, so [fuel] above the
    length of [pathname] is never used up ([_iglob_fuel] below). *)
Fixpoint _iglob (fuel : nat) (fs : filesystem) (pathname : string)
    (recursive dironly : bool) : list string :=
  match fuel with
  | O => []
  | S fuel' =>
      let '(dirname, basename) := os_path_split pathname in
      if negb (has_magic pathname) then
        if negb (is_empty basename)
        then (if os_path_exists fs pathname then [pathname] else [])
        else (if os_path_isdir fs dirname then [pathname] else [])
      else if is_empty dirname then
        if recursive && _isrecursive basename
        then _glob2 fs EmptyString basename dironly
        else _glob1 fs EmptyString basename dironly
      else
        let dirs :=
          if negb (String.eqb dirname pathname) && has_magic dirname
          then _iglob fuel' fs dirname recursive true
          else [dirname] in
        let glob_in_dir :=
          if has_magic basename then
            (if recursive && _isrecursive basename then _glob2 else _glob1)
          else _glob0 in
        flat_map
          (fun dirname =>
             map (os_path_join dirname) (glob_in_dir fs dirname basename dironly))
          dirs
  end.

(** [pathname[:2]] *)
Definition first_two (s : string) : string :=
  match s with
  | String a (String b _) => String a (String b EmptyString)
  | _ => s
  end.

(** glob.glob(pathname, recursive=recursive) *)
Definition glob (fs : filesystem) (pathname : string) (recursive : bool)
  : list string :=
  let it := _iglob (S (String.length pathname)) fs pathname recursive false in
  if is_empty pathname || (recursive && _isrecursive (first_two pathname)) then
    match it with
    | s :: rest => if is_empty s then rest else it
    | [] => []
    end
  else it.

End Posix.

(* ===================================================================== *)
(** ** Values, external calls and the monad of the methods *)
(* ===================================================================== *)

Module Py.

Import Posix.

(** Python values as far as the loader handles them.  [VRef] is a handle
    to an object of external code: a module, a class, a configuration, a
    model, a bound method, and every value of a type that has no constructor
    here (a float, a tuple, a dict, a numpy value). *)
Inductive value : Type :=
| VNone
| VBool (b : bool)
| VInt (n : Z)
| VStr (s : string)
| VList (l : list value)
| VRef (o : nat).

Record exn : Type := Exn { exn_class : string; exn_msg : string }.

(** What the loader asks of code that is not its own.  Each is answered by
    the environment with a value or an exception. *)
Inductive call : Type :=
| import_from (module name : string)              (* from module import name *)
| spec_from_file_location (name location : string)
| module_from_spec (spec : value)
| getattr (o : value) (name : string)             (* o.name *)
| call_ (callee : value) (args : list value) (kwargs : list (string * value))
| call_method (o : value) (meth : string) (args : list value)
    (kwargs : list (string * value))              (* o.meth(args, kwargs) *)
| dir_ (o : value)                                (* dir(o) *)
| format_ (fmt : string) (args : list value)      (* fmt.format(args) *)
| bool_ (o : value).                (* the truth of o: o.__bool__() or o.__len__() *)

Inductive outcome : Type :=
| Returns (v : value)
| Raises (e : exn).

Definition event : Type := call * outcome.

(** The environment of a run: the file system, the external code (its
    answer may depend on every call made so far), the modules the external
    code imports while it answers a call, and which objects are callable. *)
Record Env : Type := {
  fs : filesystem;
  ext : list event -> call -> outcome;
  ext_imports : list event -> call -> gmap string value;
  ext_callable : nat -> bool
}.

(** The instance: [save_path] and [kwargs] are there once the base class
    has initialised it; [config] and [model] are attributes that exist only
    after an assignment ([None] here: no such attribute yet). *)
Record instance : Type := {
  save_path : string;
  kwargs : gmap string value;
  config : option value;
  model : option value
}.

Record state : Type := {
  self : instance;
  sys_modules : gmap string value;           (* sys.modules *)
  stdout : list (string * list value);       (* printed by the loader: format
                                                and arguments *)
  log : list event                           (* external calls so far, oldest first *)
}.

Inductive result (A : Type) : Type :=
| Normal (a : A)
| Raised (e : exn).
Arguments Normal {A} a.
Arguments Raised {A} e.

Definition M (A : Type) : Type := Env -> state -> result A * state.

Definition ret {A} (a : A) : M A := fun _ st => (Normal a, st).

Definition bind {A B} (m : M A) (k : A -> M B) : M B :=
  fun env st =>
    match m env st with
    | (Normal a, st') => k a env st'
    | (Raised e, st') => (Raised e, st')
    end.

Definition raise_ {A} (cls msg : string) : M A :=
  fun _ st => (Raised (Exn cls msg), st).

Declare Scope py_scope.
Delimit Scope py_scope with py.
Notation "x <- m ;; k" := (bind m (fun x => k))
  (at level 100, m at next level, right associativity) : py_scope.
Notation "m ;; k" := (bind m (fun _ => k))
  (at level 100, right associativity) : py_scope.
Open Scope py_scope.

(** *** State access *)

Definition with_self (f : instance -> instance) (st : state) : state :=
  {| self := f (self st); sys_modules := sys_modules st;
     stdout := stdout st; log := log st |}.

Definition get_env : M Env := fun env st => (Normal env, st).

Definition self_save_path : M string :=
  fun _ st => (Normal (save_path (self st)), st).

Definition self_kwargs : M (gmap string value) :=
  fun _ st => (Normal (kwargs (self st)), st).

Definition no_attribute (ty name : string) : string :=
  "'" +:+ ty +:+ "' object has no attribute '" +:+ name +:+ "'".

(** [self.config], read *)
Definition self_config : M value :=
  fun _ st =>
    match config (self st) with
    | Some v => (Normal v, st)
    | None =>
        (Raised (Exn "AttributeError" (no_attribute "MrcnnTrainedModel" "config")),
         st)
    end.

(** [self.config = v] *)
Definition set_self_config (v : value) : M unit :=
  fun _ st =>
    (Normal tt,
     with_self (fun s => {| save_path := save_path s; kwargs := kwargs s;
                            config := Some v; model := model s |}) st).

(** [self.model = v] *)
Definition set_self_model (v : value) : M unit :=
  fun _ st =>
    (Normal tt,
     with_self (fun s => {| save_path := save_path s; kwargs := kwargs s;
                            config := config s; model := Some v |}) st).

(** [sys.modules[name] = v] *)
Definition set_sys_module (name : string) (v : value) : M unit :=
  fun _ st =>
    (Normal tt,
     {| self := self st; sys_modules := <[name := v]> (sys_modules st);
        stdout := stdout st; log := log st |}).

(** [print(fmt.format(args))], the text left unrendered *)
Definition print (fmt : string) (args : list value) : M unit :=
  fun _ st =>
    (Normal tt,
     {| self := self st; sys_modules := sys_modules st;
        stdout := app (stdout st) [(fmt, args)]; log := log st |}).

(** *** External calls *)

Definition to_result (o : outcome) : result value :=
  match o with
  | Returns v => Normal v
  | Raises e => Raised e
  end.

(** External code imports modules while it runs: the import statement of
    line 71, the imports of the configuration file that line 55 executes,
    the imports the library makes when it is called.  What a call imports
    is added to [sys.modules]; a module that is already there is found
    there and stays.  (External code that deletes or replaces entries of
    [sys.modules] by hand is not covered.) *)
Definition ext_call (c : call) : M value :=
  fun env st =>
    let o := ext env (log st) c in
    (to_result o,
     {| self := self st;
        sys_modules := sys_modules st ∪ ext_imports env (log st) c;
        stdout := stdout st; log := app (log st) [(c, o)] |}).

(** *** The interpreter's own part in attribute access, calls and truth *)

Definition type_name (v : value) : string :=
  match v with
  | VNone => "NoneType"
  | VBool _ => "bool"
  | VInt _ => "int"
  | VStr _ => "str"
  | VList _ => "list"
  | VRef _ => "object"
  end.

(** The truth of the values the interpreter knows by itself; an object
    has to be asked. *)
Definition truth_value (v : value) : option bool :=
  match v with
  | VNone => Some false
  | VBool b => Some b
  | VInt n => Some (negb (Z.eqb n 0))
  | VStr s => Some (negb (is_empty s))
  | VList l => Some (match l with [] => false | _ => true end)
  | VRef _ => None
  end.

Definition is_none (v : value) : bool :=
  match v with VNone => true | _ => false end.

Definition is_object (v : value) : bool :=
  match v with VRef _ => true | _ => false end.

(** [v.name].  [None] has special attributes only ([__class__] and the
    like); what other values have is the environment's answer. *)
Definition py_getattr (v : value) (name : string) : M value :=
  if is_none v && negb (startswith "__" name)
  then raise_ "AttributeError" (no_attribute (type_name v) name)
  else ext_call (getattr v name).

(** [getattr(v, name)] where [name] is any value *)
Definition py_getattr_v (v name : value) : M value :=
  match name with
  | VStr s => py_getattr v s
  | _ => raise_ "TypeError"
           ("attribute name must be string, not '" +:+ type_name name +:+ "'")
  end.

(** [callee(args, kwargs)]: only objects can be called. *)
Definition py_call (callee : value) (args : list value)
    (kwargs : list (string * value)) : M value :=
  if is_object callee then ext_call (call_ callee args kwargs)
  else raise_ "TypeError" ("'" +:+ type_name callee +:+ "' object is not callable").

(** [v.meth(args, kwargs)] *)
Definition py_call_method (v : value) (meth : string) (args : list value)
    (kwargs : list (string * value)) : M value :=
  if is_none v && negb (startswith "__" meth)
  then raise_ "AttributeError" (no_attribute (type_name v) meth)
  else ext_call (call_method v meth args kwargs).

(** [v] as a condition ([if v:], [not v]).  An object answers through its
    [__bool__] or [__len__]: it may say true or false, and it may raise (the
    truth of a numpy array with several elements is a [ValueError]); an
    answer that is not a truth value is a [TypeError]. *)
Definition py_bool (v : value) : M bool :=
  match truth_value v with
  | Some b => ret b
  | None =>
      r <- ext_call (bool_ v) ;;
      match r with
      | VBool b => ret b
      | _ => raise_ "TypeError"
               ("__bool__ should return bool, returned " +:+ type_name r)
      end
  end.

(** [v.startswith(prefix)] as a condition *)
Definition py_startswith (v : value) (prefix : string) : M bool :=
  match v with
  | VStr s => ret (startswith prefix s)
  | _ => r <- py_call_method v "startswith" [VStr prefix] [] ;; py_bool r
  end.

(** [callable(v)] *)
Definition py_callable (v : value) : M bool :=
  fun env st =>
    (Normal (match v with VRef o => ext_callable env o | _ => false end), st).

(** [dir(v)]: always a list *)
Definition py_dir (v : value) : M (list value) :=
  r <- ext_call (dir_ v) ;;
  match r with
  | VList l => ret l
  | _ => raise_ "TypeError" ("'" +:+ type_name r +:+ "' object is not iterable")
  end.

(** No external object inside: formatting runs no external code. *)
Fixpoint plain (v : value) : bool :=
  match v with
  | VRef _ => false
  | VList l => forallb plain l
  | _ => true
  end.

(** [print(fmt.format(args))] *)
Definition print_format (fmt : string) (args : list value) : M unit :=
  if forallb plain args then print fmt args
  else s <- ext_call (format_ fmt args) ;; print "{}" [s].

(** *** Comprehensions and loops over a list *)

Fixpoint filterM {A} (p : A -> M bool) (l : list A) : M (list A) :=
  match l with
  | [] => ret []
  | x :: r =>
      b <- p x ;;
      r' <- filterM p r ;;
      ret (if b then x :: r' else r')
  end.

Fixpoint for_each {A} (l : list A) (body : A -> M unit) : M unit :=
  match l with
  | [] => ret tt
  | x :: r => body x ;; for_each r body
  end.

End Py.

(* ===================================================================== *)
(** ** MrcnnTrainedModel *)
(* ===================================================================== *)

Module Mrcnn.

Import Posix Py.

Definition dquote : string := String (ascii_of_nat 34) EmptyString.
Definition newline : string := String (ascii_of_nat 10) EmptyString.

(** The message of line 49 *)
Definition config_not_found (fp : string) : string :=
  "Expected to find configuration file at " +:+ dquote +:+ fp +:+ dquote.

(** The message of line 80 *)
Definition weights_not_found (save_path : string) : string :=
  "No weights files found in " +:+ dquote +:+ save_path +:+ dquote.

(** Line 46 *)
Definition config_path (save_path : string) : string :=
  os_path_join save_path "inference_config.py".

(** Lines 62-63: the readout of the configuration's data attributes *)
Definition readout : M unit :=
  c <- self_config ;;
  names <- py_dir c ;;
  ks <- filterM
          (fun n =>
             dunder <- py_startswith n "__" ;;
             if dunder then ret false
             else
               c <- self_config ;;
               a <- py_getattr_v c n ;;
               f <- py_callable a ;;
               ret (negb f))
          names ;;
  for_each ks
    (fun k =>
       c <- self_config ;;
       a <- py_getattr_v c k ;;
       print_format "{:<20} {}" [k; a]).

(** Lines 51-63: import the file, instantiate the class, print the
    readout. *)
Definition import_config (fp : string) : M value :=
  (* Load the file as a module *)
  spec <- ext_call (spec_from_file_location "inference_config" fp) ;;
  inference_config <- ext_call (module_from_spec spec) ;;
  set_sys_module "inference_config" inference_config ;;
  loader <- py_getattr spec "loader" ;;
  py_call_method loader "exec_module" [inference_config] [] ;;
  (* Instantiate the config *)
  InferenceConfig <- py_getattr inference_config "InferenceConfig" ;;
  c <- py_call InferenceConfig [] [] ;;
  set_self_config c ;;
  (* Readout *)
  print "Inference Config:" [] ;;
  readout ;;
  ret VNone.

(** Lines 38-63.  The method has no [return]: it returns [None]. *)
Definition load_config : M value :=
  print (newline +:+ "[Loading Config]") [] ;;
  save_path <- self_save_path ;;
  let fp := config_path save_path in
  env <- get_env ;;
  if negb (os_path_exists (fs env) fp)
  then raise_ "FileNotFoundError" (config_not_found fp)
  else import_config fp.

(** Line 76 *)
Definition weights_pattern (save_path : string) : string :=
  save_path +:+ "**/*.h5".

(** Lines 76-77 *)
Definition candidates (fs : filesystem) (save_path : string) : list string :=
  glob fs (weights_pattern save_path) true.

(** Lines 78-87 *)
Definition select_weights (save_path : string) (candidates : list string)
  : M string :=
  if (List.length candidates =? 0)%nat then
    raise_ "FileNotFoundError" (weights_not_found save_path)
  else if (1 <? List.length candidates)%nat then
    let wfp := List.last candidates EmptyString in
    print ("Multiple weights found: " +:+ dquote +:+ "{}" +:+ dquote)
      [VList (map VStr candidates)] ;;
    print ("Using weights: " +:+ dquote +:+ "{}" +:+ dquote)
      [VStr (List.last candidates EmptyString)] ;;
    ret wfp
  else
    let wfp := List.nth 0 candidates EmptyString in
    print ("Using weights: " +:+ dquote +:+ "{}" +:+ dquote)
      [VStr (os_path_basename wfp)] ;;
    ret wfp.

(** Lines 93-95 *)
Definition exclusion_layers : list string :=
  ["mrcnn_class_logits"; "mrcnn_bbox_fc"; "mrcnn_bbox"; "mrcnn_mask"; "rpn_model"].

(** Line 91: [self.kwargs.get('use_mrcnn_exclusion', False)] *)
Definition use_mrcnn_exclusion (kwargs : gmap string value) : value :=
  default (VBool false) (kwargs !! "use_mrcnn_exclusion").

(** Lines 90-96 *)
Definition choose_exclusion : M (list string) :=
  kwargs <- self_kwargs ;;
  found <- py_bool (use_mrcnn_exclusion kwargs) ;;
  if found then
    print "Using mrcnn exclusion (untouched external weights)" [] ;;
    ret exclusion_layers
  else ret [].

(** The keyword arguments of line 103 *)
Definition load_weights_kwargs (exclusion : list string) : list (string * value) :=
  [("by_name", VBool true); ("exclusion", VList (map VStr exclusion))].

(** Lines 89-110: build the model from the weights file [wfp]. *)
Definition build_model (MaskRCNN : value) (wfp : string) : M value :=
  (* Potentially use mrcnn exclusion *)
  mrcnn_exclusion <- choose_exclusion ;;
  (* Load the model *)
  print "Instantiating model" [] ;;
  c <- self_config ;;
  model <- py_call MaskRCNN [VStr "inference"; c; VStr "."] [] ;;
  print "Loading weights" [] ;;
  py_call_method model "load_weights" [VStr wfp]
    (load_weights_kwargs mrcnn_exclusion) ;;
  print "Compiling model" [] ;;
  c <- self_config ;;
  lr <- py_getattr c "LEARNING_RATE" ;;
  c <- self_config ;;
  lm <- py_getattr c "LEARNING_MOMENTUM" ;;
  py_call_method model "compile" [lr; lm] [] ;;
  set_self_model model ;;
  ret VNone.

(** Lines 65-110.  The method has no [return]: it returns [None]. *)
Definition load_model : M value :=
  MaskRCNN <- ext_call (import_from "zegami_ai.mrcnn.architecture.model" "MaskRCNN") ;;
  print (newline +:+ "[Loading Model]") [] ;;
  (* Ensure weights *)
  save_path <- self_save_path ;;
  env <- get_env ;;
  wfp <- select_weights save_path (candidates (fs env) save_path) ;;
  build_model MaskRCNN wfp.

(** Lines 34-36: the two assignments of [__init__]. *)
Definition load_data : M value :=
  c <- load_config ;;
  set_self_config c ;;
  m <- load_model ;;
  set_self_model m ;;
  ret VNone.

(** Lines 14-36.  [super_init] is [TrainedModel.__init__], which is not
    part of this file: any action on the state. *)
Definition __init__ (super_init : string -> gmap string value -> M unit)
    (save_path : string) (kwargs : gmap string value) : M value :=
  (* Check basic requirements and save_path existence *)
  super_init save_path kwargs ;;
  (* Load data *)
  load_data.

End Mrcnn.


(* ===================================================================== *)
(** ** What is observed of a run *)
(* ===================================================================== *)

Module Observations.

Import Posix Py Mrcnn.

(** *** The log of external calls *)

(** [answered env h l]: starting from the log [h], the calls of [l] were
    made one after the other and each got the environment's answer. *)
Fixpoint answered (env : Env) (h l : list event) : Prop :=
  match l with
  | [] => True
  | (c, o) :: l' => o = ext env h c /\ answered env (app h [(c, o)]) l'
  end.

(** What a run from [st] to [st'] with result [r] did to the log: it
    appended the calls [l], each answered by the environment, and a call
    that was answered with an exception is the last one and its exception
    is the result. *)
Definition run_log {A} (env : Env) (st : state) (r : result A) (st' : state)
    (l : list event) : Prop :=
  log st' = app (log st) l
  /\ answered env (log st) l
  /\ forall c e, In (c, Raises e) l ->
       r = Raised e /\ exists l0, l = app l0 [(c, Raises e)].

(** An action that has no handler: every one of its runs is a [run_log]. *)
Definition propagates {A} (m : M A) : Prop :=
  forall env st, exists l, run_log env st (fst (m env st)) (snd (m env st)) l.

(** An exception of the interpreter itself: an attribute that is not
    there, a value that cannot be called or iterated. *)
Definition interpreter_error (e : exn) : Prop :=
  exn_class e = "AttributeError" \/ exn_class e = "TypeError".

(** An action that raises nothing of its own: an exception of a run is the
    interpreter's or the answer to the last external call. *)
Definition raises_from_calls {A} (m : M A) : Prop :=
  forall env st e,
    fst (m env st) = Raised e ->
    interpreter_error e
    \/ exists l0 c,
         log (snd (m env st)) = app (log st) (app l0 [(c, Raises e)]).

(** *** What the external code adds to sys.modules *)

(** The modules imported by the external code during the calls [l], made
    from the log [h] on. *)
Fixpoint imported (env : Env) (h l : list event) : gmap string value :=
  match l with
  | [] => ∅
  | (c, o) :: l' => ext_imports env h c ∪ imported env (app h [(c, o)]) l'
  end.

(** [only_imports m]: [m] itself writes nothing to [sys.modules]; after a
    run it holds what it held and what the external code imported. *)
Definition only_imports {A} (m : M A) : Prop :=
  forall env st,
    exists l,
      log (snd (m env st)) = app (log st) l
      /\ sys_modules (snd (m env st))
         = sys_modules st ∪ imported env (log st) l.

(** The calls that load a module or call a class. *)
Definition is_load (c : call) : bool :=
  match c with
  | import_from _ _ | spec_from_file_location _ _ | module_from_spec _
  | call_ _ _ _ => true
  | _ => false
  end.

Definition loads (l : list event) : list call :=
  List.filter (fun c => is_load c) (map fst l).

(** [quiet m]: [m] writes neither an attribute of the instance nor
    [sys.modules] (which gains what the external code imports, and nothing
    else), and none of its external calls is a load. *)
Definition quiet {A} (m : M A) : Prop :=
  forall env st,
    self (snd (m env st)) = self st
    /\ exists l,
         log (snd (m env st)) = app (log st) l
         /\ loads l = []
         /\ sys_modules (snd (m env st))
            = sys_modules st ∪ imported env (log st) l.

(** The calls into the model library's API: a class or a method called. *)
Definition is_api_call (c : call) : bool :=
  match c with
  | call_ _ _ _ | call_method _ _ _ _ => true
  | _ => false
  end.

Definition api_calls (l : list event) : list call :=
  List.filter (fun c => is_api_call c) (map fst l).

(** *** The calls of a run in which nothing raises *)

(** The external calls of lines 52-58 when none of them raises. *)
Definition config_calls (fp : string) (spec module loader r cls c : value)
  : list event :=
  [ (spec_from_file_location "inference_config" fp, Returns spec);
    (module_from_spec spec, Returns module);
    (getattr spec "loader", Returns loader);
    (call_method loader "exec_module" [module] [], Returns r);
    (getattr module "InferenceConfig", Returns cls);
    (call_ cls [] [], Returns c) ].

(** Line 92: what the truth test of [v] adds to the log and what it finds.
    A value of the interpreter has its truth and nothing is called; an
    object is asked once, and the run goes on when it answers with a truth
    value. *)
Definition truth_test (v : value) (found : bool) (l : list event) : Prop :=
  match truth_value v with
  | Some b => found = b /\ l = []
  | None => l = [(bool_ v, Returns (VBool found))]
  end.


(** Lines 90-95: the exclusion list, by what line 92 found. *)
Definition exclusion_of (found : bool) : list string :=
  if found then exclusion_layers else [].

(** Two values line 92 cannot tell apart: the same value, or two values
    of the interpreter with the same truth. *)
Definition same_flag (u' u : value) : Prop :=
  u' = u
  \/ exists b, truth_value u' = Some b /\ truth_value u = Some b.

(** Two states that differ at most in the keyword arguments, and there
    not in what line 92 makes of [use_mrcnn_exclusion]. *)
Definition same_but_kwargs (st st2 : state) : Prop :=
  save_path (self st2) = save_path (self st)
  /\ config (self st2) = config (self st)
  /\ model (self st2) = model (self st)
  /\ sys_modules st2 = sys_modules st
  /\ stdout st2 = stdout st
  /\ log st2 = log st
  /\ same_flag (use_mrcnn_exclusion (kwargs (self st2)))
       (use_mrcnn_exclusion (kwargs (self st))).

(** [ignores_kwargs m]: from two such states, [m] gives the same result
    and ends in two such states. *)
Definition ignores_kwargs {A} (m : M A) : Prop :=
  forall env st st2,
    same_but_kwargs st st2 ->
    fst (m env st2) = fst (m env st)
    /\ same_but_kwargs (snd (m env st)) (snd (m env st2)).

(** The external calls of lines 100-108 when none of them raises. *)
Definition model_calls (cls c : value) (wfp : string) (excl : list string)
    (m r1 lr lm r2 : value) : list event :=
  [ (call_ cls [VStr "inference"; c; VStr "."] [], Returns m);
    (call_method m "load_weights" [VStr wfp] (load_weights_kwargs excl),
     Returns r1);
    (getattr c "LEARNING_RATE", Returns lr);
    (getattr c "LEARNING_MOMENTUM", Returns lm);
    (call_method m "compile" [lr; lm] [], Returns r2) ].

Definition with_model (s : instance) (m : value) : instance :=
  {| save_path := save_path s; kwargs := kwargs s; config := config s;
     model := Some m |}.

Definition with_config (s : instance) (c : value) : instance :=
  {| save_path := save_path s; kwargs := kwargs s; config := Some c;
     model := model s |}.

(** The state of [load_model] after line 73: the class is imported and the
    heading is printed. *)
Definition after_import (env : Env) (st : state) (cls : value) : state :=
  {| self := self st;
     sys_modules :=
       sys_modules st
       ∪ ext_imports env (log st)
           (import_from "zegami_ai.mrcnn.architecture.model" "MaskRCNN");
     stdout := app (stdout st) [(newline +:+ "[Loading Model]", [])];
     log := app (log st)
              [(import_from "zegami_ai.mrcnn.architecture.model" "MaskRCNN",
                Returns cls)] |}.

(** *** The claims of the documentation, in its words *)

(** Every file below [n] whose name matches "*.h5", as a path from [n]:
    the files a recursive search for "*.h5" is meant to find. *)
Fixpoint h5_below (n : node) : list string :=
  match n with
  | File => []
  | Dir es =>
      (fix below (es : list (string * node)) : list string :=
         match es with
         | [] => []
         | (x, child) :: rest =>
             app
               (match child with
                | File => if fnmatch x "*.h5" then [x] else []
                | Dir _ => map (os_path_join x) (h5_below child)
                end)
               (below rest)
         end) es
  end.

(** "Every .h5 file in save_path or any of its subdirectories" *)
Definition h5_files_under (fs : filesystem) (save_path : string) : list string :=
  match resolve fs save_path with
  | Some n => map (os_path_join save_path) (h5_below n)
  | None => []
  end.

(** "The lexicographically last candidate" *)
Definition lexicographically_last (l : list string) : string :=
  fold_left (fun best x => if String.ltb best x then x else best) l EmptyString.

(** The entries of directory [d] that are not hidden and whose names
    match "*.h5", as paths through [d]: what the last part of the pattern
    of line 76 finds in one directory. *)
Definition h5_entries (fs : filesystem) (d : string) : list string :=
  map (os_path_join d) (_glob1 fs d "*.h5" false).

(** *** What the calls of an action look like *)

(** [emits Q m]: every external call of every run of [m] satisfies [Q]. *)
Definition emits (Q : call -> bool) {A} (m : M A) : Prop :=
  forall env st,
    exists l,
      log (snd (m env st)) = app (log st) l
      /\ forallb (fun ev => Q (fst ev)) l = true.

(** [yields R m]: what [m] returns, when it returns, satisfies [R]. *)
Definition yields {A} (R : A -> Prop) (m : M A) : Prop :=
  forall env st a st', m env st = (Normal a, st') -> R a.

(** The calls lines 62-63 can make: [dir], reads of attributes whose names
    do not start with two underscores, [startswith] on a name that is not a
    string and the truth test of its answer, and formatting. *)
Definition readout_call (c : call) : bool :=
  match c with
  | dir_ _ => true
  | getattr _ name => negb (startswith "__" name)
  | call_method _ meth _ _ => String.eqb meth "startswith"
  | format_ _ _ => true
  | bool_ _ => true
  | _ => false
  end.

(** A name of [dir] that is kept: if it is a string, it does not start
    with two underscores. *)
Definition plain_name (n : value) : Prop :=
  forall s, n = VStr s -> startswith "__" s = false.

End Observations.

(* ===================================================================== *)
(** ** Concrete save directories and a concrete library *)
(* ===================================================================== *)

Module Scenarios.

Import Posix Py Mrcnn.

(** /models/run holds a configuration, weights at its top and weights in a
    subdirectory; next to it, /models/run_old holds older weights. *)
Definition fs_models : filesystem :=
  {| root :=
       [("models",
         Dir [("run", Dir [("inference_config.py", File);
                           ("sub", Dir [("w.h5", File)]);
                           ("top.h5", File)]);
              ("run_old", Dir [("stale.h5", File)])])];
     cwd := [] |}.

(** /m lists b.h5 before a.h5. *)
Definition fs_unsorted : filesystem :=
  {| root := [("m", Dir [("inference_config.py", File);
                         ("b.h5", File);
                         ("a.h5", File)])];
     cwd := [] |}.

(** A directory without weights and without a configuration. *)
Definition fs_empty : filesystem :=
  {| root := [("m", Dir [])]; cwd := [] |}.

(** External code in which every call of the loader succeeds: importlib
    hands out a spec (2), a module (3) and a loader (4); the module's
    [InferenceConfig] is class 5, its instance 6 has the data attributes
    [LEARNING_RATE] (7) and [LEARNING_MOMENTUM] (8) and the method [display]
    (9); the library's [MaskRCNN] is class 1 and its instance is 10.  Object
    13 is a zero (0.0, or numpy's False): its truth is false.  Object 14 is
    a numpy array with several elements: its truth is an error. *)
Definition library (h : list event) (c : call) : outcome :=
  match c with
  | import_from _ _ => Returns (VRef 1)
  | spec_from_file_location _ _ => Returns (VRef 2)
  | module_from_spec _ => Returns (VRef 3)
  | getattr (VRef 2) "loader" => Returns (VRef 4)
  | call_method (VRef 4) "exec_module" _ _ => Returns VNone
  | getattr (VRef 3) "InferenceConfig" => Returns (VRef 5)
  | call_ (VRef 5) _ _ => Returns (VRef 6)
  | dir_ (VRef 6) =>
      Returns (VList [VStr "LEARNING_MOMENTUM"; VStr "LEARNING_RATE";
                      VStr "__class__"; VStr "display"])
  | getattr (VRef 6) "LEARNING_RATE" => Returns (VRef 7)
  | getattr (VRef 6) "LEARNING_MOMENTUM" => Returns (VRef 8)
  | getattr (VRef 6) "display" => Returns (VRef 9)
  | call_ (VRef 1) _ _ => Returns (VRef 10)
  | call_method (VRef 10) _ _ _ => Returns VNone
  | format_ _ _ => Returns (VStr "formatted")
  | bool_ (VRef 13) => Returns (VBool false)
  | bool_ (VRef 14) =>
      Raises (Exn "ValueError" "The truth value of an array is ambiguous")
  | _ => Raises (Exn "RuntimeError" "unexpected call")
  end.

(** What that external code imports: the import of line 71 loads the
    library's module (11), the configuration file imports the library's
    configuration module (12). *)
Definition library_imports (h : list event) (c : call) : gmap string value :=
  match c with
  | import_from module _ => {[ module := VRef 11 ]}
  | call_method (VRef 4) "exec_module" _ _ =>
      {[ "zegami_ai.mrcnn.config" := VRef 12 ]}
  | _ => ∅
  end.

(** The same, but executing the configuration module raises. *)
Definition broken_config (h : list event) (c : call) : outcome :=
  match c with
  | call_method (VRef 4) "exec_module" _ _ =>
      Raises (Exn "SyntaxError" "invalid syntax")
  | _ => library h c
  end.

(** The same, but the library is not installed. *)
Definition no_library (h : list event) (c : call) : outcome :=
  match c with
  | import_from _ _ =>
      Raises (Exn "ModuleNotFoundError" "No module named 'zegami_ai'")
  | _ => library h c
  end.

Definition env_of (fs : filesystem) (ext : list event -> call -> outcome) : Env :=
  {| fs := fs; ext := ext; ext_imports := library_imports;
     ext_callable := fun o => Nat.eqb o 9 |}.

(** An instance as the base class leaves it, in a fresh interpreter. *)
Definition fresh (save_path : string) (kwargs : gmap string value) : state :=
  {| self := {| save_path := save_path; kwargs := kwargs;
                config := None; model := None |};
     sys_modules := ∅; stdout := []; log := [] |}.

(** The same instance with a configuration in [self.config]. *)
Definition configured (save_path : string) (kwargs : gmap string value)
    (c : value) : state :=
  {| self := {| save_path := save_path; kwargs := kwargs;
                config := Some c; model := None |};
     sys_modules := ∅; stdout := []; log := [] |}.

(** A base initialiser that stores its arguments. *)
Definition store_arguments (save_path : string) (kwargs : gmap string value)
  : M unit :=
  fun _ st =>
    (Normal tt,
     {| self := {| save_path := save_path; kwargs := kwargs;
                   config := config (self st); model := model (self st) |};
        sys_modules := sys_modules st; stdout := stdout st; log := log st |}).

Definition env_ok : Env := env_of fs_models library.

(** Before [load_config], and before [load_model] with the configuration
    in place; save_path ends with a separator. *)
Definition st_fresh : state := fresh "/models/run/" ∅.
Definition st_configured : state := configured "/models/run/" ∅ (VRef 6).

(** The same with [use_mrcnn_exclusion=True]. *)
Definition st_exclusion : state :=
  configured "/models/run/" (<["use_mrcnn_exclusion" := VBool true]> ∅) (VRef 6).

(** The same with a zero object, and with an array, as [use_mrcnn_exclusion]. *)
Definition st_zero : state :=
  configured "/models/run/" (<["use_mrcnn_exclusion" := VRef 13]> ∅) (VRef 6).
Definition st_array : state :=
  configured "/models/run/" (<["use_mrcnn_exclusion" := VRef 14]> ∅) (VRef 6).

End Scenarios.

(* ===================================================================== *)
(** ** glob is total: the fuel of [_iglob] is never used up *)
(* ===================================================================== *)

Module PosixFacts.

Import Posix.

Lemma append_cons c a b : String c a +:+ b = String c (a +:+ b).
Proof. reflexivity. Qed.

Lemma append_nil b : EmptyString +:+ b = b.
Proof. reflexivity. Qed.

Lemma cut_at_last_sep_app p h t :
  cut_at_last_sep p = Some (h, t) -> p = h +:+ t.
Proof.
  revert h t. induction p as [|c r IH]; intros h t; simpl; [discriminate|].
  destruct (cut_at_last_sep r) as [[h' t']|] eqn:E.
  - intros [= <- <-]. rewrite append_cons. f_equal. now apply IH.
  - destruct (Ascii.eqb c sep); [|discriminate].
    now intros [= <- <-].
Qed.

Lemma rstrip_sep_prefix h : exists z, h = rstrip_sep h +:+ z.
Proof.
  induction h as [|c r [z IH]]; simpl.
  - now exists EmptyString.
  - destruct (rstrip_sep r) eqn:E.
    + destruct (Ascii.eqb c sep).
      * now exists (String c r).
      * exists r. rewrite append_cons, append_nil. reflexivity.
    + exists z. rewrite append_cons. f_equal. exact IH.
Qed.

Lemma length_append a b :
  String.length (a +:+ b) = (String.length a + String.length b)%nat.
Proof. induction a; rewrite ?append_cons, ?append_nil; simpl; auto. Qed.

Lemma append_empty_r a : a +:+ EmptyString = a.
Proof. induction a; rewrite ?append_cons, ?append_nil; congruence. Qed.

Lemma append_assoc a b c : (a +:+ b) +:+ c = a +:+ (b +:+ c).
Proof. induction a; rewrite ?append_cons, ?append_nil; congruence. Qed.

Lemma length_zero_empty a : String.length a = 0%nat -> a = EmptyString.
Proof. destruct a; simpl; [reflexivity | discriminate]. Qed.

(** The directory part of a path is a prefix of it. *)
Lemma os_path_split_prefix p :
  exists z, p = fst (os_path_split p) +:+ z.
Proof.
  unfold os_path_split.
  destruct (cut_at_last_sep p) as [[h t]|] eqn:E.
  - apply cut_at_last_sep_app in E. subst p.
    destruct (negb (is_empty h) && negb (all_seps h)); simpl.
    + destruct (rstrip_sep_prefix h) as [z Hz].
      exists (z +:+ t). rewrite Hz at 1. apply append_assoc.
    + now exists t.
  - simpl. now exists p.
Qed.

Lemma os_path_split_shorter p :
  String.eqb (fst (os_path_split p)) p = false ->
  (String.length (fst (os_path_split p)) < String.length p)%nat.
Proof.
  intros Hne. destruct (os_path_split_prefix p) as [z Hz].
  assert (Hlen : String.length p
                 = (String.length (fst (os_path_split p)) + String.length z)%nat).
  { rewrite Hz at 1. apply length_append. }
  destruct (String.length z) eqn:Ez; [|lia].
  apply length_zero_empty in Ez. subst z.
  rewrite append_empty_r in Hz. rewrite <- Hz in Hne.
  rewrite String.eqb_refl in Hne. discriminate.
Qed.

(** Any two amounts of fuel above the length of the pattern give the same
    result: [glob], which starts with one more than the length, computes
    what the unbounded recursion of the library computes. *)
Lemma _iglob_fuel fs recursive :
  forall n m pathname dironly,
    (String.length pathname < n)%nat ->
    (String.length pathname < m)%nat ->
    _iglob n fs pathname recursive dironly
    = _iglob m fs pathname recursive dironly.
Proof.
  induction n as [|n IH]; intros m pathname dironly Hn Hm; [lia|].
  destruct m as [|m]; [lia|].
  simpl.
  pose proof (os_path_split_shorter pathname) as Hs.
  destruct (os_path_split pathname) as [dirname basename]; simpl in Hs.
  destruct (negb (has_magic pathname)); [reflexivity|].
  destruct (is_empty dirname); [reflexivity|].
  destruct (String.eqb dirname pathname); simpl; [reflexivity|].
  destruct (has_magic dirname); [|reflexivity].
  rewrite (IH m dirname true); [reflexivity | |]; specialize (Hs eq_refl); lia.
Qed.

End PosixFacts.

(* ===================================================================== *)
(** ** Reasoning about runs *)
(* ===================================================================== *)

Module PyFacts.

Import Posix Py Observations.

Lemma answered_app env h l1 l2 :
  answered env h l1 -> answered env (app h l1) l2 -> answered env h (app l1 l2).
Proof.
  revert h. induction l1 as [|[c o] l1 IH]; intros h H1 H2; simpl in *.
  - now rewrite app_nil_r in H2.
  - destruct H1 as [-> H1]. split; [reflexivity|].
    apply IH; [exact H1|]. now rewrite <- app_assoc.
Qed.

Lemma run_log_nil {A} env st (r : result A) st' :
  log st' = log st -> run_log env st r st' [].
Proof.
  intros H. split; [|split].
  - now rewrite app_nil_r.
  - exact I.
  - intros c e [].
Qed.

Lemma propagates_pure {A} (m : M A) :
  (forall env st, log (snd (m env st)) = log st) -> propagates m.
Proof. intros H env st. exists []. apply run_log_nil, H. Qed.

Lemma propagates_ret {A} (a : A) : propagates (ret a).
Proof. now apply propagates_pure. Qed.

Lemma propagates_raise {A} cls msg : propagates (@raise_ A cls msg).
Proof. now apply propagates_pure. Qed.

Lemma propagates_bind {A B} (m : M A) (k : A -> M B) :
  propagates m -> (forall a, propagates (k a)) -> propagates (bind m k).
Proof.
  intros Hm Hk env st. unfold bind.
  destruct (Hm env st) as (lm & Hlog & Hans & Hexc).
  destruct (m env st) as [[a|e] st1]; simpl in *.
  - destruct (Hk a env st1) as (lk & Hlog' & Hans' & Hexc').
    exists (app lm lk). split; [|split].
    + rewrite Hlog', Hlog. now rewrite app_assoc.
    + apply answered_app; [exact Hans|]. now rewrite <- Hlog.
    + intros c e0 Hin. apply in_app_or in Hin as [Hin|Hin].
      * destruct (Hexc c e0 Hin) as [? _]. discriminate.
      * destruct (Hexc' c e0 Hin) as [-> [l0 ->]].
        split; [reflexivity|]. exists (app lm l0). now rewrite app_assoc.
  - exists lm. split; [exact Hlog|]. split; [exact Hans|].
    intros c e0 Hin. destruct (Hexc c e0 Hin) as [[= ->] Hlast].
    now split.
Qed.

Lemma propagates_ext_call c : propagates (ext_call c).
Proof.
  intros env st. exists [(c, ext env (log st) c)].
  unfold ext_call; simpl. split; [reflexivity|]. split; [now split|].
  intros c' e [[= <- He]|[]]. rewrite He. simpl.
  split; [reflexivity|]. now exists [].
Qed.

Lemma propagates_if {A} (b : bool) (m1 m2 : M A) :
  propagates m1 -> propagates m2 -> propagates (if b then m1 else m2).
Proof. now destruct b. Qed.

Lemma propagates_print fmt args : propagates (print fmt args).
Proof. now apply propagates_pure. Qed.

Lemma propagates_get_env : propagates get_env.
Proof. now apply propagates_pure. Qed.

Lemma propagates_self_save_path : propagates self_save_path.
Proof. now apply propagates_pure. Qed.

Lemma propagates_self_kwargs : propagates self_kwargs.
Proof. now apply propagates_pure. Qed.

Lemma propagates_self_config : propagates self_config.
Proof.
  apply propagates_pure. intros env st. unfold self_config.
  now destruct (config (self st)).
Qed.

Lemma propagates_set_self_config v : propagates (set_self_config v).
Proof. now apply propagates_pure. Qed.

Lemma propagates_set_self_model v : propagates (set_self_model v).
Proof. now apply propagates_pure. Qed.

Lemma propagates_set_sys_module name v : propagates (set_sys_module name v).
Proof. now apply propagates_pure. Qed.

Lemma propagates_py_callable v : propagates (py_callable v).
Proof. now apply propagates_pure. Qed.

Create HintDb py discriminated.

#[export] Hint Resolve propagates_ret propagates_raise propagates_ext_call
  propagates_print propagates_get_env propagates_self_save_path
  propagates_self_kwargs propagates_self_config propagates_set_self_config
  propagates_set_self_model propagates_set_sys_module propagates_py_callable
  : py.

(** Goes through an action statement by statement; a branch on a value or
    a condition is followed on each side. *)
Ltac propagate :=
  repeat first
    [ progress auto with py
    | apply propagates_bind; [|intros ?]
    | match goal with
      | |- propagates (if ?b then _ else _) => destruct b
      | |- propagates (match ?x with _ => _ end) => destruct x
      end ].

Lemma propagates_py_getattr v name : propagates (py_getattr v name).
Proof. unfold py_getattr. propagate. Qed.

Lemma propagates_py_call f args kw : propagates (py_call f args kw).
Proof. unfold py_call. propagate. Qed.

Lemma propagates_py_call_method v meth args kw :
  propagates (py_call_method v meth args kw).
Proof. unfold py_call_method. propagate. Qed.

#[export] Hint Resolve propagates_py_getattr propagates_py_call
  propagates_py_call_method : py.

Lemma propagates_py_getattr_v v name : propagates (py_getattr_v v name).
Proof. unfold py_getattr_v. propagate. Qed.

Lemma propagates_py_bool v : propagates (py_bool v).
Proof. unfold py_bool. propagate. Qed.

#[export] Hint Resolve propagates_py_bool : py.

Lemma propagates_py_startswith v prefix : propagates (py_startswith v prefix).
Proof. unfold py_startswith. propagate. Qed.

Lemma propagates_py_dir v : propagates (py_dir v).
Proof. unfold py_dir. propagate. Qed.

Lemma propagates_print_format fmt args : propagates (print_format fmt args).
Proof. unfold print_format. propagate. Qed.

#[export] Hint Resolve propagates_py_getattr_v propagates_py_startswith
  propagates_py_dir propagates_print_format : py.

Lemma propagates_filterM {A} (p : A -> M bool) l :
  (forall x, propagates (p x)) -> propagates (filterM p l).
Proof. intros Hp. induction l; simpl; propagate. Qed.

Lemma propagates_for_each {A} l (body : A -> M unit) :
  (forall x, propagates (body x)) -> propagates (for_each l body).
Proof. intros Hb. induction l; simpl; propagate. Qed.

#[export] Hint Resolve propagates_bind propagates_if propagates_filterM
  propagates_for_each : py.

(** *** Where the exceptions of a run come from *)

Lemma raises_from_calls_normal {A} (m : M A) :
  (forall env st, exists a, fst (m env st) = Normal a) -> raises_from_calls m.
Proof.
  intros H env st e He. destruct (H env st) as [a Ha]. congruence.
Qed.

Lemma raises_from_calls_ret {A} (a : A) : raises_from_calls (ret a).
Proof. apply raises_from_calls_normal. intros; now exists a. Qed.

Lemma raises_from_calls_attribute_error {A} msg :
  raises_from_calls (@raise_ A "AttributeError" msg).
Proof. intros env st e [= <-]. left. now left. Qed.

Lemma raises_from_calls_type_error {A} msg :
  raises_from_calls (@raise_ A "TypeError" msg).
Proof. intros env st e [= <-]. left. now right. Qed.

Lemma raises_from_calls_ext_call c : raises_from_calls (ext_call c).
Proof.
  intros env st e. unfold ext_call; simpl.
  destruct (ext env (log st) c) as [v|e']; simpl; [discriminate|].
  intros [= ->]. right. now exists [], c.
Qed.

Lemma raises_from_calls_bind {A B} (m : M A) (k : A -> M B) :
  propagates m -> raises_from_calls m ->
  (forall a, raises_from_calls (k a)) ->
  raises_from_calls (bind m k).
Proof.
  intros Hp Hm Hk env st e. unfold bind.
  destruct (Hp env st) as (lm & Hlm & _).
  specialize (Hm env st).
  destruct (m env st) as [[a|e'] st1]; simpl in *.
  - intros He. destruct (Hk a env st1 e He) as [Hi|(l0 & c & Hl)];
      [now left|].
    right. exists (app lm l0), c. rewrite Hl, Hlm.
    now rewrite <- !app_assoc.
  - intros [= ->]. now apply Hm.
Qed.

Lemma raises_from_calls_print fmt args : raises_from_calls (print fmt args).
Proof. apply raises_from_calls_normal. intros; now exists tt. Qed.

Lemma raises_from_calls_get_env : raises_from_calls get_env.
Proof. apply raises_from_calls_normal. intros env st; now exists env. Qed.

Lemma raises_from_calls_self_save_path : raises_from_calls self_save_path.
Proof.
  apply raises_from_calls_normal. intros env st. now eexists.
Qed.

Lemma raises_from_calls_self_kwargs : raises_from_calls self_kwargs.
Proof.
  apply raises_from_calls_normal. intros env st. now eexists.
Qed.

Lemma raises_from_calls_self_config : raises_from_calls self_config.
Proof.
  intros env st e. unfold self_config.
  destruct (config (self st)); simpl; [discriminate|].
  intros [= <-]. left. now left.
Qed.

Lemma raises_from_calls_set_self_config v :
  raises_from_calls (set_self_config v).
Proof. apply raises_from_calls_normal. intros; now exists tt. Qed.

Lemma raises_from_calls_set_self_model v :
  raises_from_calls (set_self_model v).
Proof. apply raises_from_calls_normal. intros; now exists tt. Qed.

Lemma raises_from_calls_set_sys_module name v :
  raises_from_calls (set_sys_module name v).
Proof. apply raises_from_calls_normal. intros; now exists tt. Qed.

Lemma raises_from_calls_py_callable v : raises_from_calls (py_callable v).
Proof. apply raises_from_calls_normal. intros; now eexists. Qed.

#[export] Hint Resolve raises_from_calls_ret raises_from_calls_attribute_error
  raises_from_calls_type_error raises_from_calls_ext_call
  raises_from_calls_print raises_from_calls_get_env
  raises_from_calls_self_save_path raises_from_calls_self_kwargs
  raises_from_calls_self_config raises_from_calls_set_self_config
  raises_from_calls_set_self_model raises_from_calls_set_sys_module
  raises_from_calls_py_callable : py.

Ltac trace_raises :=
  repeat first
    [ progress auto 30 with py
    | apply raises_from_calls_bind; [solve [auto 30 with py] | |intros ?]
    | match goal with
      | |- raises_from_calls (if ?b then _ else _) => destruct b
      | |- raises_from_calls (match ?x with _ => _ end) => destruct x
      end ].

Lemma raises_from_calls_py_getattr v name :
  raises_from_calls (py_getattr v name).
Proof. unfold py_getattr. trace_raises. Qed.

Lemma raises_from_calls_py_call f args kw :
  raises_from_calls (py_call f args kw).
Proof. unfold py_call. trace_raises. Qed.

Lemma raises_from_calls_py_call_method v meth args kw :
  raises_from_calls (py_call_method v meth args kw).
Proof. unfold py_call_method. trace_raises. Qed.

#[export] Hint Resolve raises_from_calls_py_getattr raises_from_calls_py_call
  raises_from_calls_py_call_method : py.

Lemma raises_from_calls_py_getattr_v v name :
  raises_from_calls (py_getattr_v v name).
Proof. unfold py_getattr_v. trace_raises. Qed.

Lemma raises_from_calls_py_bool v : raises_from_calls (py_bool v).
Proof. unfold py_bool. trace_raises. Qed.

#[export] Hint Resolve raises_from_calls_py_bool : py.

Lemma raises_from_calls_py_startswith v prefix :
  raises_from_calls (py_startswith v prefix).
Proof. unfold py_startswith. trace_raises. Qed.

Lemma raises_from_calls_py_dir v : raises_from_calls (py_dir v).
Proof. unfold py_dir. trace_raises. Qed.

Lemma raises_from_calls_print_format fmt args :
  raises_from_calls (print_format fmt args).
Proof. unfold print_format. trace_raises. Qed.

#[export] Hint Resolve raises_from_calls_py_getattr_v
  raises_from_calls_py_startswith raises_from_calls_py_dir
  raises_from_calls_print_format : py.

Lemma raises_from_calls_filterM {A} (p : A -> M bool) l :
  (forall x, propagates (p x)) ->
  (forall x, raises_from_calls (p x)) -> raises_from_calls (filterM p l).
Proof.
  intros Hp Hr. induction l; simpl; [auto with py|].
  apply raises_from_calls_bind; [apply Hp | apply Hr | intros b].
  apply raises_from_calls_bind;
    [now apply propagates_filterM | exact IHl | intros r'; auto with py].
Qed.

Lemma raises_from_calls_for_each {A} l (body : A -> M unit) :
  (forall x, propagates (body x)) ->
  (forall x, raises_from_calls (body x)) ->
  raises_from_calls (for_each l body).
Proof.
  intros Hp Hr. induction l; simpl; [auto with py|].
  apply raises_from_calls_bind; [apply Hp | apply Hr | intros _; exact IHl].
Qed.

(** *** What external code imports *)

Lemma imported_app env h l1 l2 :
  imported env h (app l1 l2)
  = imported env h l1 ∪ imported env (app h l1) l2.
Proof.
  revert h. induction l1 as [|[c o] l1 IH]; intros h; simpl.
  - now rewrite (left_id_L ∅ (∪)), app_nil_r.
  - rewrite IH, <- app_assoc. simpl. now rewrite (assoc_L (∪)).
Qed.

Lemma only_imports_pure {A} (m : M A) :
  (forall env st, sys_modules (snd (m env st)) = sys_modules st
                  /\ log (snd (m env st)) = log st) ->
  only_imports m.
Proof.
  intros H env st. destruct (H env st) as (H1 & H2). exists [].
  rewrite H1, H2, app_nil_r. simpl. now rewrite (right_id_L ∅ (∪)).
Qed.

Lemma only_imports_ret {A} (a : A) : only_imports (ret a).
Proof. now apply only_imports_pure. Qed.

Lemma only_imports_raise {A} cls msg : only_imports (@raise_ A cls msg).
Proof. now apply only_imports_pure. Qed.

Lemma only_imports_print fmt args : only_imports (print fmt args).
Proof. now apply only_imports_pure. Qed.

Lemma only_imports_get_env : only_imports get_env.
Proof. now apply only_imports_pure. Qed.

Lemma only_imports_self_save_path : only_imports self_save_path.
Proof. now apply only_imports_pure. Qed.

Lemma only_imports_self_kwargs : only_imports self_kwargs.
Proof. now apply only_imports_pure. Qed.

Lemma only_imports_self_config : only_imports self_config.
Proof.
  apply only_imports_pure. intros env st. unfold self_config.
  now destruct (config (self st)).
Qed.

Lemma only_imports_set_self_config v : only_imports (set_self_config v).
Proof. now apply only_imports_pure. Qed.

Lemma only_imports_set_self_model v : only_imports (set_self_model v).
Proof. now apply only_imports_pure. Qed.

Lemma only_imports_py_callable v : only_imports (py_callable v).
Proof. now apply only_imports_pure. Qed.

Lemma only_imports_ext_call c : only_imports (ext_call c).
Proof.
  intros env st. exists [(c, ext env (log st) c)].
  unfold ext_call; simpl. split; [reflexivity|].
  now rewrite (right_id_L ∅ (∪)).
Qed.

Lemma only_imports_bind {A B} (m : M A) (k : A -> M B) :
  only_imports m -> (forall a, only_imports (k a)) -> only_imports (bind m k).
Proof.
  intros Hm Hk env st. unfold bind.
  destruct (Hm env st) as (lm & Hlog & Hy).
  destruct (m env st) as [[a|e] st1]; simpl in *.
  - destruct (Hk a env st1) as (lk & Hlog' & Hy').
    exists (app lm lk). split.
    + rewrite Hlog', Hlog. now rewrite app_assoc.
    + rewrite Hy', Hy, Hlog, imported_app. now rewrite (assoc_L (∪)).
  - exists lm. now split.
Qed.

Lemma only_imports_if {A} (b : bool) (m1 m2 : M A) :
  only_imports m1 -> only_imports m2 -> only_imports (if b then m1 else m2).
Proof. now destruct b. Qed.

#[export] Hint Resolve only_imports_ret only_imports_raise only_imports_print
  only_imports_get_env only_imports_self_save_path only_imports_self_kwargs
  only_imports_self_config only_imports_set_self_config
  only_imports_set_self_model only_imports_py_callable only_imports_ext_call
  : py.

Ltac import_only :=
  repeat first
    [ progress auto with py
    | apply only_imports_bind; [|intros ?]
    | match goal with
      | |- only_imports (if ?b then _ else _) => destruct b
      | |- only_imports (match ?x with _ => _ end) => destruct x
      end ].

Lemma only_imports_py_getattr v name : only_imports (py_getattr v name).
Proof. unfold py_getattr. import_only. Qed.

Lemma only_imports_py_call f args kw : only_imports (py_call f args kw).
Proof. unfold py_call. import_only. Qed.

Lemma only_imports_py_call_method v meth args kw :
  only_imports (py_call_method v meth args kw).
Proof. unfold py_call_method. import_only. Qed.

Lemma only_imports_py_bool v : only_imports (py_bool v).
Proof. unfold py_bool. import_only. Qed.

#[export] Hint Resolve only_imports_py_getattr only_imports_py_call
  only_imports_py_call_method only_imports_py_bool only_imports_bind
  only_imports_if : py.

(** An assignment to [sys.modules] is still there after external code has
    imported something: imports add entries, they replace none. *)
Lemma insert_then_imports (k : string) (v : value) (m i : gmap string value) :
  <[k := v]> m ∪ i = <[k := v]> (m ∪ i).
Proof. symmetry. apply insert_union_l. Qed.

(** *** Actions that load nothing and leave the interpreter state alone *)

Lemma loads_app l1 l2 : loads (app l1 l2) = app (loads l1) (loads l2).
Proof. unfold loads. now rewrite map_app, List.filter_app. Qed.

Lemma quiet_pure {A} (m : M A) :
  (forall env st, self (snd (m env st)) = self st
                  /\ sys_modules (snd (m env st)) = sys_modules st
                  /\ log (snd (m env st)) = log st) ->
  quiet m.
Proof.
  intros H env st. destruct (H env st) as (H1 & H2 & H3).
  split; [exact H1|]. exists [].
  rewrite H2, H3, app_nil_r. simpl. now rewrite (right_id_L ∅ (∪)).
Qed.

Lemma quiet_ret {A} (a : A) : quiet (ret a).
Proof. now apply quiet_pure. Qed.

Lemma quiet_raise {A} cls msg : quiet (@raise_ A cls msg).
Proof. now apply quiet_pure. Qed.

Lemma quiet_print fmt args : quiet (print fmt args).
Proof. now apply quiet_pure. Qed.

Lemma quiet_self_config : quiet self_config.
Proof.
  apply quiet_pure. intros env st. unfold self_config.
  now destruct (config (self st)).
Qed.

Lemma quiet_py_callable v : quiet (py_callable v).
Proof. now apply quiet_pure. Qed.

Lemma quiet_ext_call c : is_load c = false -> quiet (ext_call c).
Proof.
  intros Hc env st. unfold ext_call; simpl.
  split; [reflexivity|].
  exists [(c, ext env (log st) c)]. split; [reflexivity|]. split.
  - unfold loads; simpl. now rewrite Hc.
  - simpl. now rewrite (right_id_L ∅ (∪)).
Qed.

Lemma quiet_bind {A B} (m : M A) (k : A -> M B) :
  quiet m -> (forall a, quiet (k a)) -> quiet (bind m k).
Proof.
  intros Hm Hk env st. unfold bind.
  destruct (Hm env st) as (Hs & lm & Hlog & Hl & Hy).
  destruct (m env st) as [[a|e] st1]; simpl in *.
  - destruct (Hk a env st1) as (Hs' & lk & Hlog' & Hl' & Hy').
    split; [congruence|].
    exists (app lm lk). split; [|split].
    + rewrite Hlog', Hlog. now rewrite app_assoc.
    + rewrite loads_app, Hl, Hl'. reflexivity.
    + rewrite Hy', Hy, Hlog, imported_app. now rewrite (assoc_L (∪)).
  - split; [exact Hs|]. now exists lm.
Qed.

#[export] Hint Resolve quiet_ret quiet_raise quiet_print quiet_self_config
  quiet_py_callable : py.

Ltac keep_quiet :=
  repeat first
    [ progress auto with py
    | apply quiet_bind; [|intros ?]
    | apply quiet_ext_call; reflexivity
    | match goal with
      | |- quiet (if ?b then _ else _) => destruct b
      | |- quiet (match ?x with _ => _ end) => destruct x
      end ].

Lemma quiet_py_getattr v name : quiet (py_getattr v name).
Proof. unfold py_getattr. keep_quiet. Qed.

Lemma quiet_py_call_method v meth args kw : quiet (py_call_method v meth args kw).
Proof. unfold py_call_method. keep_quiet. Qed.

Lemma quiet_py_bool v : quiet (py_bool v).
Proof. unfold py_bool. keep_quiet. Qed.

#[export] Hint Resolve quiet_py_getattr quiet_py_call_method quiet_py_bool : py.

Lemma quiet_py_getattr_v v name : quiet (py_getattr_v v name).
Proof. unfold py_getattr_v. keep_quiet. Qed.

Lemma quiet_py_startswith v prefix : quiet (py_startswith v prefix).
Proof. unfold py_startswith. keep_quiet. Qed.

Lemma quiet_py_dir v : quiet (py_dir v).
Proof. unfold py_dir. keep_quiet. Qed.

Lemma quiet_print_format fmt args : quiet (print_format fmt args).
Proof. unfold print_format. keep_quiet. Qed.

#[export] Hint Resolve quiet_py_getattr_v quiet_py_startswith quiet_py_dir
  quiet_print_format : py.

Lemma quiet_filterM {A} (p : A -> M bool) l :
  (forall x, quiet (p x)) -> quiet (filterM p l).
Proof. intros Hp. induction l; simpl; keep_quiet. Qed.

Lemma quiet_for_each {A} l (body : A -> M unit) :
  (forall x, quiet (body x)) -> quiet (for_each l body).
Proof. intros Hb. induction l; simpl; keep_quiet. Qed.

End PyFacts.

(* ===================================================================== *)
(** ** The loader: what every run does *)
(* ===================================================================== *)

Module MrcnnFacts.

Import Posix Py Mrcnn Observations PosixFacts PyFacts.

Lemma quiet_only_imports {A} (m : M A) : quiet m -> only_imports m.
Proof.
  intros H env st. destruct (H env st) as (_ & l & Hl & _ & Hy).
  exists l. now split.
Qed.

Lemma propagates_readout : propagates readout.
Proof. unfold readout. auto 30 with py. Qed.

Lemma quiet_readout : quiet readout.
Proof.
  unfold readout. keep_quiet.
  - apply quiet_filterM. intros n. keep_quiet.
  - apply quiet_for_each. intros k. keep_quiet.
Qed.

Lemma only_imports_readout : only_imports readout.
Proof. apply quiet_only_imports, quiet_readout. Qed.

#[export] Hint Resolve propagates_readout only_imports_readout : py.

Lemma propagates_import_config fp : propagates (import_config fp).
Proof. unfold import_config. propagate. Qed.

#[export] Hint Resolve propagates_import_config : py.

Lemma propagates_load_config : propagates load_config.
Proof. unfold load_config. propagate. Qed.

Lemma propagates_select_weights sp cs : propagates (select_weights sp cs).
Proof. unfold select_weights. propagate. Qed.

Lemma propagates_choose_exclusion : propagates choose_exclusion.
Proof. unfold choose_exclusion. propagate. Qed.

#[export] Hint Resolve propagates_select_weights propagates_choose_exclusion
  : py.

Lemma propagates_build_model cls wfp : propagates (build_model cls wfp).
Proof. unfold build_model. propagate. Qed.

#[export] Hint Resolve propagates_build_model : py.

Lemma propagates_load_model : propagates load_model.
Proof. unfold load_model. propagate. Qed.

#[export] Hint Resolve propagates_load_config propagates_load_model : py.

Lemma propagates_load_data : propagates load_data.
Proof. unfold load_data. propagate. Qed.

Lemma only_imports_select_weights sp cs : only_imports (select_weights sp cs).
Proof. unfold select_weights. import_only. Qed.

Lemma only_imports_choose_exclusion : only_imports choose_exclusion.
Proof. unfold choose_exclusion. import_only. Qed.

#[export] Hint Resolve only_imports_select_weights
  only_imports_choose_exclusion : py.

Lemma only_imports_build_model cls wfp : only_imports (build_model cls wfp).
Proof. unfold build_model. import_only. Qed.

#[export] Hint Resolve only_imports_build_model : py.

(** [load_model] writes nothing to [sys.modules]. *)
Lemma only_imports_load_model : only_imports load_model.
Proof. unfold load_model. import_only. Qed.

(** Two ways of writing the calls of one run are the same calls. *)
Lemma same_calls {x h l1 l2 : list event} :
  x = app h l1 -> x = app h l2 -> l1 = l2.
Proof. intros H1 H2. rewrite H1 in H2. now apply app_inv_head in H2. Qed.


Lemma raises_from_calls_readout : raises_from_calls readout.
Proof.
  unfold readout. trace_raises.
  - apply raises_from_calls_filterM; intros n; [propagate | trace_raises].
  - apply raises_from_calls_for_each; intros k; [propagate | trace_raises].
Qed.

#[export] Hint Resolve raises_from_calls_readout : py.


Lemma raises_from_calls_choose_exclusion : raises_from_calls choose_exclusion.
Proof. unfold choose_exclusion. trace_raises. Qed.

#[export] Hint Resolve raises_from_calls_choose_exclusion : py.

Lemma raises_from_calls_build_model cls wfp :
  raises_from_calls (build_model cls wfp).
Proof. unfold build_model. trace_raises. Qed.


(** *** Following one run, statement by statement *)

(** Unfolds the statements of the monad in [H], where the state is given
    field by field. *)
Ltac run_in H :=
  cbv beta iota zeta delta
      [bind ret raise_ ext_call to_result print get_env self_save_path
       self_kwargs self_config set_self_config set_self_model set_sys_module
       with_self py_getattr py_call py_call_method py_bool choose_exclusion
       self sys_modules stdout log save_path kwargs config model] in H;
  cbn [is_none is_object andb negb startswith Ascii.eqb Bool.eqb] in H.

(** Splits on the answer or the condition the run in [H] waits for. *)
Ltac case_step H :=
  match type of H with
  | context [match ?x with _ => _ end] =>
      lazymatch x with
      | context [match _ with _ => _ end] => fail
      | _ => destruct x eqn:?
      end
  end.

Ltac follow H := run_in H; repeat (case_step H; run_in H; try discriminate H).

Lemma nth_0_last (cs : list string) :
  (List.length cs =? 0)%nat = false ->
  (1 <? List.length cs)%nat = false ->
  List.nth 0 cs EmptyString = List.last cs EmptyString.
Proof.
  destruct cs as [|a [|b cs]]; simpl; intros H0 H1;
    [discriminate | reflexivity | discriminate].
Qed.

(** The selection of lines 78-87, when it does not raise. *)
Lemma select_weights_normal sp cs env st wfp st' :
  select_weights sp cs env st = (Normal wfp, st') ->
  cs <> [] /\ wfp = List.last cs EmptyString
  /\ self st' = self st /\ sys_modules st' = sys_modules st
  /\ log st' = log st.
Proof.
  intros H. destruct st as [[sp0 kw cfg mdl] sm out h].
  unfold select_weights in H. follow H.
  - injection H as <- <-. simpl.
    split; [now destruct cs|]. now repeat split.
  - injection H as <- <-. simpl.
    split; [now destruct cs|]. split; [now apply nth_0_last|].
    now repeat split.
Qed.

Lemma build_model_normal cls wfp env st v st' :
  build_model cls wfp env st = (Normal v, st') ->
  exists c m r1 lr lm r2 found lt,
    v = VNone
    /\ config (self st) = Some c
    /\ is_none c = false
    /\ truth_test (use_mrcnn_exclusion (kwargs (self st))) found lt
    /\ log st' = app (log st)
                   (app lt
                      (model_calls cls c wfp (exclusion_of found)
                         m r1 lr lm r2))
    /\ self st' = with_model (self st) m.
Proof.
  intros H. destruct st as [[sp kw cfg mdl] sm out h].
  unfold build_model in H. follow H.
  all: injection H as <- <-; subst; simpl in *.
  all: rewrite ?andb_true_r in *.
  all: match goal with
       | Ht : truth_value _ = Some ?b |- _ =>
           do 6 eexists; exists b, []; unfold truth_test; rewrite Ht
       | Ht : truth_value _ = None
         |- context [(bool_ ?u, Returns (VBool ?b))] =>
           do 6 eexists; exists b, [(bool_ u, Returns (VBool b))];
           unfold truth_test; rewrite Ht
       end.
  all: unfold model_calls; rewrite <- !app_assoc; simpl.
  all: repeat split; try reflexivity; assumption.
Qed.

Lemma load_model_normal env st v st' :
  load_model env st = (Normal v, st') ->
  exists cls c m r1 lr lm r2 found lt,
    let cs := candidates (fs env) (save_path (self st)) in
    let l := (import_from "zegami_ai.mrcnn.architecture.model" "MaskRCNN",
              Returns cls)
             :: app lt
                  (model_calls cls c (List.last cs EmptyString)
                     (exclusion_of found) m r1 lr lm r2) in
    v = VNone
    /\ cs <> []
    /\ config (self st) = Some c
    /\ is_none c = false
    /\ truth_test (use_mrcnn_exclusion (kwargs (self st))) found lt
    /\ log st' = app (log st) l
    /\ self st' = with_model (self st) m
    /\ sys_modules st' = sys_modules st ∪ imported env (log st) l.
Proof.
  intros H.
  destruct (only_imports_load_model env st) as (l0 & Hl0 & Hy0).
  rewrite H in Hl0, Hy0. simpl in Hl0, Hy0.
  destruct st as [[sp kw cfg mdl] sm out h].
  unfold load_model in H. follow H.
  match goal with
  | Hs : select_weights _ _ _ _ = _ |- _ =>
      apply select_weights_normal in Hs;
      destruct Hs as (Hne & -> & Hself & Hsys & Hlog)
  end.
  apply build_model_normal in H.
  destruct H as (c & m & r1 & lr & lm & r2 & found & lt & -> & Hc & Hnone
                 & Ht & Hl & Hs).
  simpl in *. rewrite Hself in *. rewrite Hlog in Hl. simpl in *.
  exists v0, c, m, r1, lr, lm, r2, found, lt.
  rewrite <- app_assoc in Hl. simpl in Hl.
  rewrite (same_calls Hl0 Hl) in Hy0.
  repeat split; try assumption; congruence.
Qed.

(** Lines 78-87 with no candidate, and with at least one. *)
Lemma select_weights_empty sp env st :
  select_weights sp [] env st
  = (Raised (Exn "FileNotFoundError" (weights_not_found sp)), st).
Proof. reflexivity. Qed.

Lemma select_weights_nonempty sp cs env st :
  cs <> [] ->
  exists st1,
    select_weights sp cs env st = (Normal (List.last cs EmptyString), st1)
    /\ self st1 = self st /\ sys_modules st1 = sys_modules st
    /\ log st1 = log st.
Proof.
  intros Hne. destruct cs as [|a [|b cs]]; [contradiction| |];
    unfold select_weights, bind, print, ret;
    cbn [List.length Nat.eqb Nat.ltb Nat.leb];
    eexists; (split; [reflexivity|]); now repeat split.
Qed.

(** Lines 71-77: once the class is imported, [load_model] selects among
    the candidates and builds the model. *)
Lemma load_model_after_import env st cls :
  ext env (log st) (import_from "zegami_ai.mrcnn.architecture.model" "MaskRCNN")
  = Returns cls ->
  load_model env st
  = bind (select_weights (save_path (self st))
            (candidates (fs env) (save_path (self st))))
      (build_model cls) env (after_import env st cls).
Proof.
  intros H. unfold load_model, bind at 1, ext_call. rewrite H. reflexivity.
Qed.

(** A log that grew is not the log it grew from. *)
Ltac log_absurd H :=
  exfalso; apply (f_equal (@List.length _)) in H;
  rewrite ?List.length_app in H; simpl in H; lia.

(** Closes the goals about the log of a run that was followed to its end:
    the log is what it was plus the calls made, and a statement about the
    calls in it is checked call by call. *)
Ltac log_facts :=
  repeat match goal with
    | |- _ /\ _ => split
    | |- ?h = app ?h _ => symmetry; apply app_nil_r
    | |- app _ _ = app _ _ => rewrite <- ?app_assoc; simpl; reflexivity
    | |- forall _, _ => intro
    | H : In _ _ |- _ => simpl in H; decompose [or] H; clear H
    | H : (_, _) = (_, _) |- _ => injection H as ? ?; subst
    | H : False |- _ => destruct H
    | _ => discriminate
    | _ => reflexivity
    | _ => congruence
    end.

(** With [None] in [self.config], [load_model] never returns: if the
    library's class and [load_weights] accept it, reading the learning rate
    from it raises.  The class is called with [None], [compile] is not
    called, and no attribute is written. *)
Lemma load_model_config_none env st r st' :
  config (self st) = Some VNone ->
  load_model env st = (r, st') ->
  exists e l,
    r = Raised e
    /\ self st' = self st
    /\ log st' = app (log st) l
    /\ (forall callee args kw o,
          In (call_ callee args kw, o) l ->
          args = [VStr "inference"; VNone; VStr "."])
    /\ (forall m args kw o, ~ In (call_method m "compile" args kw, o) l)
    /\ (forall m args kw a,
          In (call_method m "load_weights" args kw, Returns a) l ->
          e = Exn "AttributeError" (no_attribute "NoneType" "LEARNING_RATE")).
Proof.
  intros Hc H. destruct st as [[sp kw cfg mdl] sm out h].
  simpl in Hc. subst cfg.
  unfold load_model, select_weights, build_model in H.
  run_in H. repeat (case_step H; run_in H).
  all: injection H as <- <-; do 2 eexists; simpl.
  all: split; [reflexivity|]; split; [reflexivity|].
  all: split; [log_facts|].
  all: unfold not; log_facts.
Qed.

(** Rewrites what [sys.modules] holds at the end of a followed run as
    the initial map, the imports of the calls and, on top, the assignment
    of line 54. *)
Ltac modules_facts :=
  cbn [imported app sys_modules log];
  rewrite ?imported_app; cbn [imported app];
  rewrite ?insert_then_imports, ?(right_id_L ∅ (∪)), ?(assoc_L (∪));
  rewrite <- ?app_assoc; cbn [app];
  reflexivity.

Lemma import_config_normal fp env st v st' :
  import_config fp env st = (Normal v, st') ->
  exists spec module loader r cls c l,
    v = VNone
    /\ log st' = app (log st) (app (config_calls fp spec module loader r cls c) l)
    /\ loads l = []
    /\ self st' = with_config (self st) c
    /\ sys_modules st'
       = <["inference_config" := module]>
           (sys_modules st
            ∪ imported env (log st)
                (app (config_calls fp spec module loader r cls c) l)).
Proof.
  intros H. destruct st as [[sp kw cfg mdl] sm out h].
  unfold import_config in H. follow H.
  injection H as <- <-.
  match goal with
  | Hr : readout env ?st0 = (_, ?s) |- _ =>
      destruct (quiet_readout env st0) as (Hs & l & Hl & Hloads & Hy);
      rewrite Hr in Hs, Hy, Hl; simpl in Hs, Hy, Hl
  end.
  exists v0, v1, v2, v3, v4, v5, l.
  rewrite Hs, Hy, Hl. unfold config_calls.
  split; [reflexivity|]. split; [now rewrite <- !app_assoc|].
  split; [exact Hloads|]. split; [reflexivity|].
  modules_facts.
Qed.

Lemma loads_cons c o l :
  loads ((c, o) :: l) = if is_load c then c :: loads l else loads l.
Proof. reflexivity. Qed.

Lemma loads_nil : loads [] = [].
Proof. reflexivity. Qed.

(** Whatever the outcome, the loads of lines 52-63 are the first ones of:
    the spec of the file, the module of that spec, one class called without
    arguments. *)
Lemma import_config_loads fp env st r st' :
  import_config fp env st = (r, st') ->
  exists l spec cls k,
    log st' = app (log st) l
    /\ loads l = firstn k [ spec_from_file_location "inference_config" fp;
                            module_from_spec spec;
                            call_ cls [] [] ].
Proof.
  intros H. destruct st as [[sp kw cfg mdl] sm out h].
  unfold import_config in H. run_in H. repeat (case_step H; run_in H).
  all: injection H as <- <-; simpl.
  all: try match goal with
       | Hr : readout ?e ?st0 = (_, ?s) |- _ =>
           destruct (quiet_readout e st0) as (_ & lr & Hl & Hloads & _);
           rewrite Hr in Hl; simpl in Hl; rewrite Hl
       end.
  all: eexists; eexists; eexists.
  all: first
         [ exists 0; split; [log_facts|];
           rewrite ?loads_cons, ?loads_nil; cbn [is_load]; rewrite ?Hloads;
           reflexivity
         | exists 1; split; [log_facts|];
           rewrite ?loads_cons, ?loads_nil; cbn [is_load]; rewrite ?Hloads;
           reflexivity
         | exists 2; split; [log_facts|];
           rewrite ?loads_cons, ?loads_nil; cbn [is_load]; rewrite ?Hloads;
           reflexivity
         | exists 3; split; [log_facts|];
           rewrite ?loads_cons, ?loads_nil; cbn [is_load]; rewrite ?Hloads;
           reflexivity ].
  Unshelve. all: exact VNone.
Qed.

Lemma load_config_normal env st v st' :
  load_config env st = (Normal v, st') ->
  let fp := config_path (save_path (self st)) in
  os_path_exists (fs env) fp = true
  /\ exists spec module loader r cls c l,
       v = VNone
       /\ log st' = app (log st)
                      (app (config_calls fp spec module loader r cls c) l)
       /\ loads l = []
       /\ self st' = with_config (self st) c
       /\ sys_modules st'
          = <["inference_config" := module]>
              (sys_modules st
               ∪ imported env (log st)
                   (app (config_calls fp spec module loader r cls c) l)).
Proof.
  intros H fp. subst fp. destruct st as [[sp kw cfg mdl] sm out h].
  unfold load_config in H. run_in H.
  destruct (os_path_exists (fs env) (config_path sp)) eqn:He; simpl in H;
    [|discriminate].
  split; [exact He|].
  apply import_config_normal in H. exact H.
Qed.

(** [load_config] with the file in place is [import_config], after the
    heading is printed. *)
Lemma load_config_exists env st :
  os_path_exists (fs env) (config_path (save_path (self st))) = true ->
  load_config env st
  = import_config (config_path (save_path (self st))) env
      {| self := self st; sys_modules := sys_modules st;
         stdout := app (stdout st) [(newline +:+ "[Loading Config]", [])];
         log := log st |}.
Proof.
  intros He. unfold load_config, bind, print, self_save_path, get_env.
  simpl. now rewrite He.
Qed.

Lemma load_config_missing env st :
  os_path_exists (fs env) (config_path (save_path (self st))) = false ->
  load_config env st
  = (Raised (Exn "FileNotFoundError"
               (config_not_found (config_path (save_path (self st))))),
     {| self := self st; sys_modules := sys_modules st;
        stdout := app (stdout st) [(newline +:+ "[Loading Config]", [])];
        log := log st |}).
Proof.
  intros He. unfold load_config, bind, print, self_save_path, get_env.
  simpl. now rewrite He.
Qed.


(** When [build_model] raises the error of a missing file, the error is an
    external call's: the log has grown. *)
Lemma build_model_not_found cls wfp env st msg st' :
  build_model cls wfp env st = (Raised (Exn "FileNotFoundError" msg), st') ->
  log st' <> log st.
Proof.
  intros H. destruct st as [[sp kw cfg mdl] sm out h].
  unfold build_model in H. follow H.
  all: injection H as _ <-; simpl; intros Hlog.
  all: rewrite <- ?app_assoc in Hlog; log_absurd Hlog.
Qed.

End MrcnnFacts.

(* ===================================================================== *)
(** ** The properties of the loader *)
(* ===================================================================== *)

Module Loader.

Import Posix Py Mrcnn Observations Scenarios PosixFacts PyFacts MrcnnFacts.

(** *** load_model: the calls into the model library *)





(** An object as [use_mrcnn_exclusion] counts by its truth, not by being
    there: with a zero (0.0, numpy's False) the exclusion list is empty, as
    without the argument; with an array, whose truth is an error, line 92
    raises and the library is not called. *)
Example load_weights_arguments_of_objects :
  kwargs (self st_zero) !! "use_mrcnn_exclusion" = Some (VRef 13)
  /\ fst (load_model env_ok st_zero) = Normal VNone
  /\ log (snd (load_model env_ok st_zero))
     = [ (import_from "zegami_ai.mrcnn.architecture.model" "MaskRCNN",
          Returns (VRef 1));
         (bool_ (VRef 13), Returns (VBool false));
         (call_ (VRef 1) [VStr "inference"; VRef 6; VStr "."] [],
          Returns (VRef 10));
         (call_method (VRef 10) "load_weights" [VStr "/models/run/sub/w.h5"]
            [("by_name", VBool true); ("exclusion", VList [])],
          Returns VNone);
         (getattr (VRef 6) "LEARNING_RATE", Returns (VRef 7));
         (getattr (VRef 6) "LEARNING_MOMENTUM", Returns (VRef 8));
         (call_method (VRef 10) "compile" [VRef 7; VRef 8] [], Returns VNone) ]
  /\ fst (load_model env_ok st_array)
     = Raised (Exn "ValueError" "The truth value of an array is ambiguous")
  /\ api_calls (log (snd (load_model env_ok st_array))) = [].
Proof. repeat split; vm_compute; reflexivity. Qed.

(** *** load_model: the weights file *)

(** C5, as the code has it.  Whenever the search yields candidates,
    lines 78-87 select the last element of the glob result (which, with
    exactly one candidate, is that candidate); once the class is imported
    [load_model] builds the model from that file, and in a run that returns
    it is the file [load_weights] was called with.  The order is that of
    [glob], which is not the lexicographic one. *)
Theorem load_model_selects_last_of_glob env st :
  let sp := save_path (self st) in
  let cs := candidates (fs env) sp in
  cs <> [] ->
  (exists st1,
     select_weights sp cs env st = (Normal (List.last cs EmptyString), st1))
  /\ (forall w, cs = [w] -> List.last cs EmptyString = w)
  /\ (forall cls,
        ext env (log st)
          (import_from "zegami_ai.mrcnn.architecture.model" "MaskRCNN")
        = Returns cls ->
        exists st1,
          load_model env st
          = build_model cls (List.last cs EmptyString) env st1)
  /\ (forall v st',
        load_model env st = (Normal v, st') ->
        exists m kw r,
          In (call_method m "load_weights" [VStr (List.last cs EmptyString)] kw,
              Returns r) (log st')).
Proof.
  intros sp cs Hne. split; [|split; [|split]].
  - destruct (select_weights_nonempty sp cs env st Hne) as (st1 & H & _).
    now exists st1.
  - intros w ->. reflexivity.
  - intros cls Hcls.
    destruct (select_weights_nonempty sp cs env (after_import env st cls) Hne)
      as (st1 & H & _).
    exists st1. rewrite (load_model_after_import env st cls Hcls).
    unfold bind. fold sp cs. now rewrite H.
  - intros v st' H. apply load_model_normal in H.
    destruct H as (cls & c & m & r1 & lr & lm & r2 & found & lt & H).
    cbv zeta in H. destruct H as (_ & _ & _ & _ & _ & Hl & _ & _).
    exists m, (load_weights_kwargs (exclusion_of found)), r1.
    rewrite Hl. apply in_or_app. right. right. apply in_or_app. right.
    unfold model_calls. simpl. tauto.
Qed.

Lemma load_model_selects_last_of_glob_witness :
  candidates (fs env_ok) (save_path (self st_configured)) <> []
  /\ exists m kw r,
       In (call_method m "load_weights" [VStr "/models/run/sub/w.h5"] kw,
           Returns r)
          (log (snd (load_model env_ok st_configured))).
Proof.
  assert (Hne : candidates (fs env_ok) (save_path (self st_configured)) <> [])
    by (vm_compute; discriminate).
  split; [exact Hne|].
  destruct (load_model_selects_last_of_glob env_ok st_configured Hne)
    as (_ & _ & _ & H).
  apply (H VNone). vm_compute. reflexivity.
Defined.

(** C5, as the documentation has it, fails: below /models/run/ the search
    yields top.h5 before sub/w.h5; the file selected is sub/w.h5, the
    lexicographically last candidate is top.h5. *)
Lemma last_of_glob_not_lexicographically_last :
  let cs := candidates (fs env_ok) "/models/run/" in
  (1 < List.length cs)%nat
  /\ fst (select_weights "/models/run/" cs env_ok st_configured)
     = Normal "/models/run/sub/w.h5"
  /\ lexicographically_last cs = "/models/run/top.h5"
  /\ fst (select_weights "/models/run/" cs env_ok st_configured)
     <> Normal (lexicographically_last cs).
Proof.
  cbv zeta. split; [vm_compute; lia|].
  split; [vm_compute; reflexivity|].
  split; [vm_compute; reflexivity|].
  vm_compute. discriminate.
Qed.

(** *** What the loading calls leave behind *)

(** C9, as the code has it.  A run of [load_config] that returns leaves
    the loaded module in [sys.modules] under 'inference_config' and the
    instance of the configuration class in [self.config]; a run of
    [load_model] that returns leaves the model in [self.model].  These are
    the only writes of the two methods themselves: the other attributes of
    the instance are as before, and what else is new in [sys.modules] is
    what the external code imported during the calls of the run (the import
    of line 71, the imports of the executed configuration file and of the
    library); no entry that was there is removed or replaced, except
    'inference_config'. *)
Theorem loading_calls_leave_state env st v st' :
  (load_config env st = (Normal v, st') ->
   exists spec module cls c l,
     log st' = app (log st) l
     /\ In (module_from_spec spec, Returns module) l
     /\ In (call_ cls [] [], Returns c) l
     /\ sys_modules st'
        = <["inference_config" := module]>
            (sys_modules st ∪ imported env (log st) l)
     /\ self st' = with_config (self st) c)
  /\ (load_model env st = (Normal v, st') ->
      exists cls args m l,
        log st' = app (log st) l
        /\ In (call_ cls args [], Returns m) l
        /\ sys_modules st' = sys_modules st ∪ imported env (log st) l
        /\ self st' = with_model (self st) m).
Proof.
  split; intros H.
  - apply load_config_normal in H. cbv zeta in H.
    destruct H as (_ & spec & module & loader & r & cls & c & l & H).
    destruct H as (_ & Hl & _ & Hs & Hy).
    exists spec, module, cls, c. eexists.
    split; [exact Hl|].
    repeat split; try assumption;
      apply in_or_app; left; simpl; tauto.
  - apply load_model_normal in H.
    destruct H as (cls & c & m & r1 & lr & lm & r2 & found & lt & H).
    cbv zeta in H. destruct H as (_ & _ & _ & _ & _ & Hl & Hs & Hy).
    exists cls, [VStr "inference"; c; VStr "."], m. eexists.
    split; [exact Hl|].
    repeat split; try assumption.
    right. apply in_or_app; right. simpl. tauto.
Qed.

Lemma loading_calls_leave_state_witness :
  load_config env_ok st_fresh = (Normal VNone, snd (load_config env_ok st_fresh))
  /\ (exists module c l,
        log (snd (load_config env_ok st_fresh)) = app (log st_fresh) l
        /\ sys_modules (snd (load_config env_ok st_fresh))
           = <["inference_config" := module]>
               (sys_modules st_fresh ∪ imported env_ok (log st_fresh) l)
        /\ self (snd (load_config env_ok st_fresh))
           = with_config (self st_fresh) c)
  /\ load_model env_ok st_configured
     = (Normal VNone, snd (load_model env_ok st_configured))
  /\ (exists m l,
        log (snd (load_model env_ok st_configured)) = app (log st_configured) l
        /\ sys_modules (snd (load_model env_ok st_configured))
           = sys_modules st_configured ∪ imported env_ok (log st_configured) l
        /\ self (snd (load_model env_ok st_configured))
           = with_model (self st_configured) m).
Proof.
  assert (H1 : load_config env_ok st_fresh
               = (Normal VNone, snd (load_config env_ok st_fresh)))
    by (vm_compute; reflexivity).
  assert (H2 : load_model env_ok st_configured
               = (Normal VNone, snd (load_model env_ok st_configured)))
    by (vm_compute; reflexivity).
  split; [exact H1|]. split.
  - destruct (proj1 (loading_calls_leave_state _ _ _ _) H1)
      as (spec & module & cls & c & l & Hl & _ & _ & Hy & Hs).
    exists module, c, l. split; [exact Hl|]. split; [exact Hy | exact Hs].
  - split; [exact H2|].
    destruct (proj2 (loading_calls_leave_state _ _ _ _) H2)
      as (cls & args & m & l & Hl & _ & Hy & Hs).
    exists m, l. split; [exact Hl|]. split; [exact Hy | exact Hs].
Defined.

(** C9, as the documentation has it, fails: after [load_config] has
    returned, [sys.modules] has an entry it did not have and the instance
    has an attribute it did not have; after [load_model] has returned, the
    instance has the attribute [model]. *)
Lemma loading_calls_outlive_the_call :
  let st1 := snd (load_config env_ok st_fresh) in
  let st2 := snd (load_model env_ok st_configured) in
  fst (load_config env_ok st_fresh) = Normal VNone
  /\ sys_modules st_fresh !! "inference_config" = None
  /\ sys_modules st1 !! "inference_config" = Some (VRef 3)
  /\ config (self st_fresh) = None
  /\ config (self st1) = Some (VRef 6)
  /\ fst (load_model env_ok st_configured) = Normal VNone
  /\ model (self st_configured) = None
  /\ model (self st2) = Some (VRef 10).
Proof. cbv zeta. repeat split; vm_compute; reflexivity. Qed.

(** What the external code imported is in [sys.modules] as well: here the
    module the configuration file imports, and the library's module that
    line 71 imports. *)
Example loading_calls_import_modules :
  sys_modules (snd (load_config env_ok st_fresh))
  = <["inference_config" := VRef 3]>
      (<["zegami_ai.mrcnn.config" := VRef 12]> ∅)
  /\ sys_modules (snd (load_model env_ok st_configured))
     = <["zegami_ai.mrcnn.architecture.model" := VRef 11]> ∅.
Proof. split; vm_compute; reflexivity. Qed.

(** *** load_config: the configuration file and its class *)





(** The path for a save_path without a separator at its end, and for the
    empty save_path (the current directory). *)
Example config_path_examples :
  config_path "/models/run" = "/models/run/inference_config.py"
  /\ config_path "/models/run/" = "/models/run/inference_config.py"
  /\ config_path "" = "inference_config.py".
Proof. repeat split; reflexivity. Qed.

(** *** load_model: the weights check *)

(** C4, as the code has it.  The import of line 71 comes first: when it
    raises, [load_model] raises that exception, whatever the search would
    find.  When the class is imported, [load_model] raises its
    file-not-found error, with no further external call, exactly when the
    search yields no candidate; with at least one candidate the check
    passes, the last candidate is selected, the method goes on to build the
    model from it and raises nothing of its own any more (an exception is
    then the answer to its last external call, or the interpreter's
    [AttributeError] or [TypeError]). *)
Theorem load_model_file_not_found env st :
  let sp := save_path (self st) in
  let cs := candidates (fs env) sp in
  let import := import_from "zegami_ai.mrcnn.architecture.model" "MaskRCNN" in
  (forall e,
     ext env (log st) import = Raises e ->
     exists st',
       load_model env st = (Raised e, st')
       /\ log st' = app (log st) [(import, Raises e)])
  /\ (forall cls,
        ext env (log st) import = Returns cls ->
        (cs = []
         <-> exists st',
               load_model env st
               = (Raised (Exn "FileNotFoundError" (weights_not_found sp)), st')
               /\ log st' = log (after_import env st cls))
        /\ (cs <> [] ->
            exists st1,
              select_weights sp cs env (after_import env st cls)
              = (Normal (List.last cs EmptyString), st1)
              /\ load_model env st
                 = build_model cls (List.last cs EmptyString) env st1
              /\ forall e,
                   fst (load_model env st) = Raised e ->
                   interpreter_error e
                   \/ exists l0 c,
                        log (snd (load_model env st))
                        = app (log (after_import env st cls))
                            (app l0 [(c, Raises e)]))).
Proof.
  intros sp cs import. split.
  { intros e He. unfold load_model, bind, ext_call. fold import.
    rewrite He. simpl. eexists. split; reflexivity. }
  intros cls Hcls.
  assert (Hsel : cs <> [] ->
                 exists st1,
                   select_weights sp cs env (after_import env st cls)
                   = (Normal (List.last cs EmptyString), st1)
                   /\ log st1 = log (after_import env st cls)
                   /\ load_model env st
                      = build_model cls (List.last cs EmptyString) env st1).
  { intros Hne.
    destruct (select_weights_nonempty sp cs env (after_import env st cls) Hne)
      as (st1 & H & _ & _ & Hlog).
    exists st1. split; [exact H|]. split; [exact Hlog|].
    rewrite (load_model_after_import env st cls Hcls).
    unfold bind. fold sp cs. now rewrite H. }
  split; [split|].
  - intros Hnil. rewrite (load_model_after_import env st cls Hcls).
    fold sp cs. rewrite Hnil. unfold bind. rewrite select_weights_empty.
    eexists. split; reflexivity.
  - intros (st' & H & Hlog).
    destruct cs as [|a cs'] eqn:Hcs; [reflexivity|]. exfalso.
    destruct Hsel as (st1 & _ & Hlog1 & Hb); [discriminate|].
    rewrite Hb in H. apply build_model_not_found in H.
    apply H. congruence.
  - intros Hne. destruct (Hsel Hne) as (st1 & H & Hlog & Hb).
    exists st1. split; [exact H|]. split; [exact Hb|].
    intros e He. rewrite Hb in He |- *. rewrite <- Hlog.
    now apply raises_from_calls_build_model.
Qed.

Lemma load_model_file_not_found_witness :
  (candidates (fs (env_of fs_empty library)) (save_path (self (fresh "/m" ∅)))
   = []
   /\ exists st',
        load_model (env_of fs_empty library) (fresh "/m" ∅)
        = (Raised (Exn "FileNotFoundError"
                     (weights_not_found (save_path (self (fresh "/m" ∅))))),
           st'))
  /\ (candidates (fs env_ok) (save_path (self st_configured)) <> []
      /\ exists st1,
           load_model env_ok st_configured
           = build_model (VRef 1)
               (List.last (candidates (fs env_ok)
                             (save_path (self st_configured))) EmptyString)
               env_ok st1)
  /\ exists st',
       load_model (env_of fs_models no_library) st_configured
       = (Raised (Exn "ModuleNotFoundError" "No module named 'zegami_ai'"), st').
Proof.
  split; [|split].
  - assert (Hi : ext (env_of fs_empty library) (log (fresh "/m" ∅))
                   (import_from "zegami_ai.mrcnn.architecture.model" "MaskRCNN")
                 = Returns (VRef 1)) by reflexivity.
    assert (Hc : candidates (fs (env_of fs_empty library))
                   (save_path (self (fresh "/m" ∅))) = [])
      by (vm_compute; reflexivity).
    split; [exact Hc|].
    destruct (proj1 (proj1 (proj2 (load_model_file_not_found _ _) _ Hi)) Hc)
      as (st' & H & _).
    exists st'. exact H.
  - assert (Hi : ext env_ok (log st_configured)
                   (import_from "zegami_ai.mrcnn.architecture.model" "MaskRCNN")
                 = Returns (VRef 1)) by reflexivity.
    assert (Hc : candidates (fs env_ok) (save_path (self st_configured)) <> [])
      by (vm_compute; discriminate).
    split; [exact Hc|].
    destruct (proj2 (proj2 (load_model_file_not_found _ _) _ Hi) Hc)
      as (st1 & _ & H & _).
    exists st1. exact H.
  - assert (Hi : ext (env_of fs_models no_library) (log st_configured)
                   (import_from "zegami_ai.mrcnn.architecture.model" "MaskRCNN")
                 = Raises (Exn "ModuleNotFoundError"
                             "No module named 'zegami_ai'")) by reflexivity.
    destruct (proj1 (load_model_file_not_found _ _) _ Hi) as (st' & H & _).
    exists st'. exact H.
Defined.

(** C4, as stated, fails: in a directory without weights the search
    yields no candidate, but where the library is not installed the import
    of line 71 raises first, and the exception of [load_model] is the
    import's, not a file-not-found error. *)
Lemma load_model_without_library_not_file_not_found :
  let env := env_of fs_empty no_library in
  let run := load_model env (fresh "/m" ∅) in
  candidates (fs env) "/m" = []
  /\ fst run = Raised (Exn "ModuleNotFoundError" "No module named 'zegami_ai'")
  /\ fst run <> Raised (Exn "FileNotFoundError" (weights_not_found "/m")).
Proof.
  cbv zeta. split; [vm_compute; reflexivity|].
  split; [vm_compute; reflexivity|].
  vm_compute. discriminate.
Qed.

(** *** No handler *)

(** C7.  In every run of [load_config], of [load_model] and of
    [__init__] after the base initialiser has returned, the log grows by the
    external calls made, each answered by the environment, and a call
    answered with an exception is the last call of the run and that
    exception is the result of the run, unchanged. *)
Theorem external_exceptions_propagate env st :
  (exists l,
     run_log env st (fst (load_config env st)) (snd (load_config env st)) l)
  /\ (exists l,
        run_log env st (fst (load_model env st)) (snd (load_model env st)) l)
  /\ (forall super_init sp kw st0,
        super_init sp kw env st0 = (Normal tt, st) ->
        exists l,
          run_log env st
            (fst (__init__ super_init sp kw env st0))
            (snd (__init__ super_init sp kw env st0)) l).
Proof.
  split; [apply propagates_load_config|].
  split; [apply propagates_load_model|].
  intros super_init sp kw st0 Hs.
  unfold __init__, bind. rewrite Hs.
  apply propagates_load_data.
Qed.

Lemma external_exceptions_propagate_witness :
  store_arguments "/models/run/" ∅ (env_of fs_models broken_config) (fresh "" ∅)
  = (Normal tt, st_fresh)
  /\ exists l,
       run_log (env_of fs_models broken_config) st_fresh
         (fst (__init__ store_arguments "/models/run/" ∅
                 (env_of fs_models broken_config) (fresh "" ∅)))
         (snd (__init__ store_arguments "/models/run/" ∅
                 (env_of fs_models broken_config) (fresh "" ∅))) l.
Proof.
  assert (H : store_arguments "/models/run/" ∅
                (env_of fs_models broken_config) (fresh "" ∅)
              = (Normal tt, st_fresh)) by reflexivity.
  split; [exact H|].
  exact (proj2 (proj2 (external_exceptions_propagate
                         (env_of fs_models broken_config) st_fresh))
           store_arguments "/models/run/" ∅ (fresh "" ∅) H).
Defined.

(** *** __init__ *)

(** C2.  When [load_config] returns in [__init__], it has put the
    instance of the configuration class in [self.config] (line 58) and it
    returns [None] (it has no [return]); line 35 assigns that [None] to
    [self.config], over the configuration.  So [self.config] is [None] when
    [load_model] runs: if [load_model] gets as far as the library's class,
    it calls it with [None]; if the class and [load_weights] accept that,
    reading [LEARNING_RATE] from [None] raises [AttributeError].
    [load_model] does not return: [__init__] raises, [compile] is not
    called and [self.model] is not assigned. *)
Theorem init_config_is_none super_init sp kw env st st1 v st2 :
  super_init sp kw env st = (Normal tt, st1) ->
  load_config env st1 = (Normal v, st2) ->
  v = VNone
  /\ (exists cls c,
        In (call_ cls [] [], Returns c) (log st2)
        /\ config (self st2) = Some c)
  /\ exists e st' l,
       __init__ super_init sp kw env st = (Raised e, st')
       /\ config (self st') = Some VNone
       /\ model (self st') = model (self st1)
       /\ log st' = app (log st2) l
       /\ (forall callee args kw' o,
             In (call_ callee args kw', o) l ->
             args = [VStr "inference"; VNone; VStr "."])
       /\ (forall m args kw' o, ~ In (call_method m "compile" args kw', o) l)
       /\ (forall m args kw' a,
             In (call_method m "load_weights" args kw', Returns a) l ->
             e = Exn "AttributeError" (no_attribute "NoneType" "LEARNING_RATE")).
Proof.
  intros Hs Hc.
  pose proof (load_config_normal env st1 v st2 Hc) as Hn. cbv zeta in Hn.
  destruct Hn as (_ & spec & module & loader & r0 & cls & c & l0 & Hn).
  destruct Hn as (-> & Hl0 & _ & Hself & _).
  split; [reflexivity|].
  split.
  { exists cls, c. rewrite Hl0, Hself. split; [|reflexivity].
    apply in_or_app; right. apply in_or_app; left.
    unfold config_calls. simpl. tauto. }
  unfold __init__, bind at 1. rewrite Hs.
  unfold load_data, bind at 1. rewrite Hc.
  unfold bind at 1, set_self_config at 1.
  match goal with
  | |- context [with_self ?f st2] => set (st3 := with_self f st2)
  end.
  destruct (load_model env st3) as [r st4] eqn:Hm.
  destruct (load_model_config_none env st3 r st4 eq_refl Hm)
    as (e & l & -> & Hs4 & Hl & H1 & H2 & H3).
  exists e, st4, l. unfold bind. rewrite Hm. simpl in Hs4, Hl.
  split; [reflexivity|]. rewrite Hs4, Hl. simpl. rewrite Hself. simpl.
  repeat split; assumption.
Qed.

Lemma init_config_is_none_witness :
  store_arguments "/models/run/" ∅ env_ok (fresh "" ∅) = (Normal tt, st_fresh)
  /\ load_config env_ok st_fresh
     = (Normal VNone, snd (load_config env_ok st_fresh))
  /\ exists e st',
       __init__ store_arguments "/models/run/" ∅ env_ok (fresh "" ∅)
       = (Raised e, st')
       /\ config (self st') = Some VNone
       /\ model (self st') = model (self st_fresh).
Proof.
  assert (H1 : store_arguments "/models/run/" ∅ env_ok (fresh "" ∅)
               = (Normal tt, st_fresh)) by reflexivity.
  assert (H2 : load_config env_ok st_fresh
               = (Normal VNone, snd (load_config env_ok st_fresh)))
    by (vm_compute; reflexivity).
  split; [exact H1|]. split; [exact H2|].
  destruct (init_config_is_none _ _ _ _ _ _ _ _ H1 H2)
    as (_ & _ & e & st' & l & H & Hc & Hm & _).
  exists e, st'. split; [exact H|]. split; [exact Hc | exact Hm].
Defined.

(** C2, on a save directory that is in order.  With the configuration
    and the weights in place and a library in which every call succeeds,
    [load_config] returns and leaves the configuration in [self.config];
    [__init__] replaces it by [None] and raises [AttributeError] from
    line 106.  [self.model] is not [None] either: the instance has no such
    attribute. *)
Lemma init_does_not_set_model_to_none :
  let run := __init__ store_arguments "/models/run/" ∅ env_ok (fresh "" ∅) in
  fst (load_config env_ok
         (snd (store_arguments "/models/run/" ∅ env_ok (fresh "" ∅))))
  = Normal VNone
  /\ config (self (snd (load_config env_ok st_fresh))) = Some (VRef 6)
  /\ fst run
     = Raised (Exn "AttributeError"
                 "'NoneType' object has no attribute 'LEARNING_RATE'")
  /\ config (self (snd run)) = Some VNone
  /\ model (self (snd run)) = None
  /\ model (self (snd run)) <> Some VNone.
Proof.
  cbv zeta. repeat split; try (vm_compute; reflexivity).
  vm_compute. discriminate.
Qed.

(** *** The weights search *)

(** C1 at a save_path without a trailing separator.  Line 76 puts the
    pattern directly after save_path, so for /models/run the pattern is
    /models/run**/*.h5: its first part matches the directories of /models
    whose names start with "run", and only the files directly inside them
    are candidates.  The weights in /models/run/sub are not a candidate, the
    weights in /models/run_old are, and they are the ones selected. *)
Theorem candidates_without_separator :
  weights_pattern "/models/run" = "/models/run**/*.h5"
  /\ candidates fs_models "/models/run"
     = ["/models/run/top.h5"; "/models/run_old/stale.h5"]
  /\ h5_files_under fs_models "/models/run"
     = ["/models/run/sub/w.h5"; "/models/run/top.h5"]
  /\ (In "/models/run/sub/w.h5" (h5_files_under fs_models "/models/run")
      /\ ~ In "/models/run/sub/w.h5" (candidates fs_models "/models/run"))
  /\ (In "/models/run_old/stale.h5" (candidates fs_models "/models/run")
      /\ ~ In "/models/run_old/stale.h5" (h5_files_under fs_models "/models/run"))
  /\ fst (select_weights "/models/run" (candidates fs_models "/models/run")
            env_ok (configured "/models/run" ∅ (VRef 6)))
     = Normal "/models/run_old/stale.h5".
Proof.
  split; [reflexivity|].
  assert (Hc : candidates fs_models "/models/run"
               = ["/models/run/top.h5"; "/models/run_old/stale.h5"])
    by (vm_compute; reflexivity).
  assert (Hu : h5_files_under fs_models "/models/run"
               = ["/models/run/sub/w.h5"; "/models/run/top.h5"])
    by (vm_compute; reflexivity).
  rewrite Hc, Hu.
  split; [reflexivity|]. split; [reflexivity|].
  split; [split; [simpl; tauto|]|split; [split; [simpl; tauto|]|reflexivity]].
  - simpl. intros [H|[H|[]]]; discriminate H.
  - simpl. intros [H|[H|[]]]; discriminate H.
Qed.

(** With the separator at the end of save_path the pattern is
    /models/run/**/*.h5, the search is recursive, and here it finds the
    files below /models/run and no other. *)
Example candidates_with_separator :
  weights_pattern "/models/run/" = "/models/run/**/*.h5"
  /\ candidates fs_models "/models/run/"
     = ["/models/run/top.h5"; "/models/run/sub/w.h5"]
  /\ h5_files_under fs_models "/models/run/"
     = ["/models/run/sub/w.h5"; "/models/run/top.h5"].
Proof. repeat split; vm_compute; reflexivity. Qed.

End Loader.

(* ===================================================================== *)
(** ** Every run of the loader, failing ones included *)
(* ===================================================================== *)

Module MrcnnRuns.

Import Posix Py Mrcnn Observations PosixFacts PyFacts MrcnnFacts.

Lemma api_calls_app l1 l2 :
  api_calls (app l1 l2) = app (api_calls l1) (api_calls l2).
Proof. unfold api_calls. now rewrite map_app, List.filter_app. Qed.

(** What any run of [load_model] does to the state: the attributes other
    than [model] stay, [model] is written in the runs that return only,
    with what the class returned, and [sys.modules] gets what the external
    code imported and nothing else. *)
Lemma load_model_any_run env st r st' :
  load_model env st = (r, st') ->
  (exists l,
     log st' = app (log st) l
     /\ sys_modules st' = sys_modules st ∪ imported env (log st) l)
  /\ match r with
     | Normal v =>
         v = VNone
         /\ exists cls args m,
              self st' = with_model (self st) m
              /\ In (call_ cls args [], Returns m) (log st')
     | Raised _ => self st' = self st
     end.
Proof.
  intros H. split.
  { destruct (only_imports_load_model env st) as (l & Hl & Hy).
    rewrite H in Hl, Hy. now exists l. }
  destruct st as [[sp kw cfg mdl] sm out h].
  unfold load_model, select_weights, build_model in H.
  run_in H. repeat (case_step H; run_in H).
  all: injection H as <- <-; simpl; try reflexivity.
  all: split; [reflexivity|]; do 3 eexists; split; [reflexivity|].
  all: rewrite <- ?app_assoc; apply in_or_app; right; simpl; tauto.
Qed.

(** Without a configuration in [self.config], [load_model] raises before
    it calls anything of the library: the attribute is read for the call of
    the class.  Before that read come the import, the weights check and the
    truth test of line 92. *)
Lemma load_model_no_config env st r st' :
  config (self st) = None ->
  load_model env st = (r, st') ->
  exists e l,
    r = Raised e
    /\ log st' = app (log st) l
    /\ api_calls l = []
    /\ (forall cls,
          In (import_from "zegami_ai.mrcnn.architecture.model" "MaskRCNN",
              Returns cls) l ->
          candidates (fs env) (save_path (self st)) <> [] ->
          (forall u a, In (bool_ u, a) l -> exists b, a = Returns (VBool b)) ->
          e = Exn "AttributeError" (no_attribute "MrcnnTrainedModel" "config")).
Proof.
  intros Hc H. destruct st as [[sp kw cfg mdl] sm out h].
  simpl in Hc. subst cfg.
  unfold load_model, select_weights, build_model in H.
  run_in H. repeat (case_step H; run_in H).
  all: injection H as <- <-; do 2 eexists; simpl.
  all: split; [reflexivity|]; split; [log_facts|]; split; [reflexivity|].
  all: intros cls Hin Hne Hbool; simpl in Hin; simpl in Hne.
  all: try reflexivity.
  all: try (destruct Hin as [Hin|[]]; discriminate Hin).
  all: try (exfalso; apply Hne;
    match goal with
    | Hl : (List.length ?cs =? 0)%nat = true |- _ =>
        destruct cs; [reflexivity | discriminate Hl]
    end).
  all: exfalso;
    match goal with
    | |- _ =>
        edestruct Hbool as [b Hb]; [right; left; reflexivity|];
        discriminate Hb
    end.
Qed.

(** *** The keyword arguments *)

Lemma ignores_kwargs_bind {A B} (m : M A) (k : A -> M B) :
  ignores_kwargs m -> (forall a, ignores_kwargs (k a)) ->
  ignores_kwargs (bind m k).
Proof.
  intros Hm Hk env st st2 Hst. unfold bind.
  destruct (Hm env st st2 Hst) as (Hr & Hst').
  destruct (m env st) as [r st1]; destruct (m env st2) as [r2 st3].
  simpl in Hr, Hst'. subst r2.
  destruct r as [a|e]; [apply Hk; exact Hst' | now split].
Qed.

(** An action that reads the state without [kwargs] and writes it without
    [kwargs]. *)
Ltac ignore_kwargs :=
  let env := fresh "env" in
  let Hst := fresh "Hst" in
  intros env [[? ? ? ?] ? ? ?] [[? ? ? ?] ? ? ?] Hst;
  unfold same_but_kwargs in *; simpl in *;
  destruct Hst as (-> & -> & -> & -> & -> & -> & Hst);
  repeat match goal with
    | |- context [match ?x with _ => _ end] => destruct x
    end;
  simpl; repeat split; solve [reflexivity | exact Hst].

Lemma ignores_kwargs_ret {A} (a : A) : ignores_kwargs (ret a).
Proof. ignore_kwargs. Qed.

Lemma ignores_kwargs_raise {A} cls msg : ignores_kwargs (@raise_ A cls msg).
Proof. ignore_kwargs. Qed.

Lemma ignores_kwargs_print fmt args : ignores_kwargs (print fmt args).
Proof. ignore_kwargs. Qed.

Lemma ignores_kwargs_get_env : ignores_kwargs get_env.
Proof. ignore_kwargs. Qed.

Lemma ignores_kwargs_self_save_path : ignores_kwargs self_save_path.
Proof. ignore_kwargs. Qed.

Lemma ignores_kwargs_self_config : ignores_kwargs self_config.
Proof. unfold self_config. ignore_kwargs. Qed.

Lemma ignores_kwargs_set_self_model v : ignores_kwargs (set_self_model v).
Proof. ignore_kwargs. Qed.

Lemma ignores_kwargs_ext_call c : ignores_kwargs (ext_call c).
Proof. unfold ext_call. ignore_kwargs. Qed.

#[export] Hint Resolve ignores_kwargs_ret ignores_kwargs_raise
  ignores_kwargs_print ignores_kwargs_get_env ignores_kwargs_self_save_path
  ignores_kwargs_self_config ignores_kwargs_set_self_model
  ignores_kwargs_ext_call : py.

Ltac ignore_kwargs_in :=
  repeat first
    [ progress auto with py
    | apply ignores_kwargs_bind; [|intros ?]
    | match goal with
      | |- ignores_kwargs (if ?b then _ else _) => destruct b
      | |- ignores_kwargs (match ?x with _ => _ end) => destruct x
      end ].

Lemma ignores_kwargs_py_getattr v name : ignores_kwargs (py_getattr v name).
Proof. unfold py_getattr. ignore_kwargs_in. Qed.

Lemma ignores_kwargs_py_call f args kw : ignores_kwargs (py_call f args kw).
Proof. unfold py_call. ignore_kwargs_in. Qed.

Lemma ignores_kwargs_py_call_method v meth args kw :
  ignores_kwargs (py_call_method v meth args kw).
Proof. unfold py_call_method. ignore_kwargs_in. Qed.

Lemma ignores_kwargs_py_bool v : ignores_kwargs (py_bool v).
Proof. unfold py_bool. ignore_kwargs_in. Qed.

Lemma ignores_kwargs_select_weights sp cs :
  ignores_kwargs (select_weights sp cs).
Proof. unfold select_weights. ignore_kwargs_in. Qed.

#[export] Hint Resolve ignores_kwargs_py_getattr ignores_kwargs_py_call
  ignores_kwargs_py_call_method ignores_kwargs_py_bool
  ignores_kwargs_select_weights : py.

(** Lines 90-96 read [kwargs], and of it what line 92 makes of
    [use_mrcnn_exclusion]. *)
Lemma ignores_kwargs_choose_exclusion : ignores_kwargs choose_exclusion.
Proof.
  pose (chosen := fun found : bool =>
          if found
          then bind (print "Using mrcnn exclusion (untouched external weights)" [])
                 (fun _ => ret exclusion_layers)
          else ret []).
  assert (Hchosen : forall found, ignores_kwargs (chosen found))
    by (intros []; unfold chosen; ignore_kwargs_in).
  intros env st st2 Hst.
  change (choose_exclusion env st2)
    with (bind (py_bool (use_mrcnn_exclusion (kwargs (self st2)))) chosen
            env st2).
  change (choose_exclusion env st)
    with (bind (py_bool (use_mrcnn_exclusion (kwargs (self st)))) chosen
            env st).
  pose proof Hst as (_ & _ & _ & _ & _ & _ & [Hu | (b & Hb2 & Hb)]).
  - rewrite Hu.
    apply ignores_kwargs_bind; [auto with py | exact Hchosen | exact Hst].
  - unfold py_bool. rewrite Hb2, Hb.
    apply (ignores_kwargs_bind (ret b) chosen);
      [auto with py | exact Hchosen | exact Hst].
Qed.

#[export] Hint Resolve ignores_kwargs_choose_exclusion : py.

Lemma ignores_kwargs_build_model cls wfp : ignores_kwargs (build_model cls wfp).
Proof. unfold build_model. ignore_kwargs_in. Qed.

#[export] Hint Resolve ignores_kwargs_build_model : py.

Lemma ignores_kwargs_load_model : ignores_kwargs load_model.
Proof. unfold load_model. ignore_kwargs_in. Qed.

End MrcnnRuns.

(* ===================================================================== *)
(** ** The readout *)
(* ===================================================================== *)

Module ReadoutFacts.

Import Posix Py Mrcnn Observations PosixFacts PyFacts MrcnnFacts.

Lemma yields_ret {A} (R : A -> Prop) a : R a -> yields R (ret a).
Proof. intros Ha env st a' st' [= <- _]. exact Ha. Qed.

Lemma yields_always {A} (R : A -> Prop) (m : M A) :
  (forall a, R a) -> yields R m.
Proof. intros H env st a st' _. apply H. Qed.

Lemma yields_bind {A B} (R : A -> Prop) (S : B -> Prop) (m : M A)
    (k : A -> M B) :
  yields R m -> (forall a, R a -> yields S (k a)) -> yields S (bind m k).
Proof.
  intros Hm Hk env st b st'. unfold bind.
  destruct (m env st) as [[a|e] st1] eqn:E; [|discriminate].
  intros H. exact (Hk a (Hm env st a st1 E) env st1 b st' H).
Qed.

Lemma emits_pure Q {A} (m : M A) :
  (forall env st, log (snd (m env st)) = log st) -> emits Q m.
Proof.
  intros H env st. exists []. rewrite H, app_nil_r. now split.
Qed.

Lemma emits_ret Q {A} (a : A) : emits Q (ret a).
Proof. now apply emits_pure. Qed.

Lemma emits_raise Q {A} cls msg : emits Q (@raise_ A cls msg).
Proof. now apply emits_pure. Qed.

Lemma emits_print Q fmt args : emits Q (print fmt args).
Proof. now apply emits_pure. Qed.

Lemma emits_py_callable Q v : emits Q (py_callable v).
Proof. now apply emits_pure. Qed.

Lemma emits_self_config Q : emits Q self_config.
Proof.
  apply emits_pure. intros env st. unfold self_config.
  now destruct (config (self st)).
Qed.

Lemma emits_ext_call (Q : call -> bool) c : Q c = true -> emits Q (ext_call c).
Proof.
  intros Hc env st. exists [(c, ext env (log st) c)].
  split; [reflexivity|]. simpl. now rewrite Hc.
Qed.

Lemma emits_bind Q {A B} (R : A -> Prop) (m : M A) (k : A -> M B) :
  emits Q m -> yields R m -> (forall a, R a -> emits Q (k a)) ->
  emits Q (bind m k).
Proof.
  intros Hm Hy Hk env st. unfold bind.
  destruct (Hm env st) as (lm & Hlm & Hqm).
  destruct (m env st) as [[a|e] st1] eqn:E; simpl in *.
  - destruct (Hk a (Hy env st a st1 E) env st1) as (lk & Hlk & Hqk).
    exists (app lm lk). split.
    + rewrite Hlk, Hlm. now rewrite <- app_assoc.
    + rewrite List.forallb_app. apply andb_true_intro.
      split; [exact Hqm | exact Hqk].
  - exists lm. now split.
Qed.

Lemma emits_seq Q {A B} (m : M A) (k : A -> M B) :
  emits Q m -> (forall a, emits Q (k a)) -> emits Q (bind m k).
Proof.
  intros Hm Hk. apply (emits_bind Q (fun _ => True)); auto.
  now apply yields_always.
Qed.

(** [v.startswith('__')] answers for a string what the string is. *)
Lemma yields_py_startswith n :
  yields (fun d => d = false -> plain_name n) (py_startswith n "__").
Proof.
  destruct n; try (apply yields_always; intros d _ s0 Hs; discriminate Hs).
  simpl. apply yields_ret. intros Hd s0 [= <-]. exact Hd.
Qed.

Lemma emits_py_bool v : emits readout_call (py_bool v).
Proof.
  unfold py_bool. destruct (truth_value v); [apply emits_ret|].
  apply emits_seq; [now apply emits_ext_call|].
  intros r. destruct r; first [apply emits_ret | apply emits_raise].
Qed.

Lemma emits_py_startswith n : emits readout_call (py_startswith n "__").
Proof.
  destruct n; simpl; try apply emits_ret;
    (apply emits_seq; [|intros r; apply emits_py_bool]);
    unfold py_call_method;
    match goal with
    | |- emits _ (if ?b then _ else _) => destruct b
    end;
    first [apply emits_raise | now apply emits_ext_call].
Qed.

Lemma emits_py_getattr_v c n :
  plain_name n -> emits readout_call (py_getattr_v c n).
Proof.
  intros Hn. destruct n; simpl; try apply emits_raise.
  unfold py_getattr.
  destruct (is_none c && negb (startswith "__" s)); [apply emits_raise|].
  apply emits_ext_call. cbn [readout_call]. now rewrite (Hn s eq_refl).
Qed.

Lemma emits_print_format fmt args : emits readout_call (print_format fmt args).
Proof.
  unfold print_format. destruct (forallb plain args); [apply emits_print|].
  apply emits_seq; [now apply emits_ext_call | intros s; apply emits_print].
Qed.

Lemma emits_py_dir c : emits readout_call (py_dir c).
Proof.
  unfold py_dir. apply emits_seq; [now apply emits_ext_call|].
  intros r. destruct r; first [apply emits_ret | apply emits_raise].
Qed.

Lemma emits_filterM Q {A} (p : A -> M bool) l :
  (forall x, emits Q (p x)) -> emits Q (filterM p l).
Proof.
  intros Hp. induction l as [|x r IH]; simpl; [apply emits_ret|].
  apply emits_seq; [apply Hp|]. intros b.
  apply emits_seq; [exact IH|]. intros r'. apply emits_ret.
Qed.

Lemma yields_filterM {A} (P : A -> Prop) (p : A -> M bool) l :
  (forall x, yields (fun b => b = true -> P x) (p x)) ->
  yields (Forall P) (filterM p l).
Proof.
  intros Hp. induction l as [|x r IH]; simpl.
  - apply yields_ret. constructor.
  - apply (yields_bind (fun b => b = true -> P x)); [apply Hp|].
    intros b Hb. apply (yields_bind (Forall P)); [exact IH|].
    intros r' Hr'. apply yields_ret.
    destruct b; [constructor; auto | exact Hr'].
Qed.

Lemma emits_for_each Q {A} (P : A -> Prop) l (body : A -> M unit) :
  (forall x, P x -> emits Q (body x)) -> Forall P l ->
  emits Q (for_each l body).
Proof.
  intros Hb Hl. induction Hl as [|x r Hx Hr IH]; simpl; [apply emits_ret|].
  apply emits_seq; [now apply Hb | intros _; exact IH].
Qed.

(** Lines 62-63 make readout calls only. *)
Lemma emits_readout : emits readout_call readout.
Proof.
  unfold readout.
  apply emits_seq; [apply emits_self_config | intros c].
  apply emits_seq; [apply emits_py_dir | intros names].
  apply (emits_bind readout_call (Forall plain_name)).
  - apply emits_filterM. intros n.
    apply (emits_bind readout_call (fun d => d = false -> plain_name n));
      [apply emits_py_startswith | apply yields_py_startswith |].
    intros d Hd. destruct d; [apply emits_ret|].
    apply emits_seq; [apply emits_self_config | intros c0].
    apply emits_seq; [apply emits_py_getattr_v; auto | intros a].
    apply emits_seq; [apply emits_py_callable | intros f; apply emits_ret].
  - apply yields_filterM. intros n.
    apply (yields_bind (fun d => d = false -> plain_name n));
      [apply yields_py_startswith|].
    intros d Hd. destruct d.
    + apply yields_ret. discriminate.
    + apply yields_always. auto.
  - intros ks Hks. apply (emits_for_each readout_call plain_name); [|exact Hks].
    intros k Hk.
    apply emits_seq; [apply emits_self_config | intros c0].
    apply emits_seq; [now apply emits_py_getattr_v | intros a].
    apply emits_print_format.
Qed.

(** What any run of lines 51-63 does to the state, and where a run stands
    when executing the module raises. *)
Lemma import_config_any_run fp env st r st' :
  import_config fp env st = (r, st') ->
  save_path (self st') = save_path (self st)
  /\ kwargs (self st') = kwargs (self st)
  /\ model (self st') = model (self st)
  /\ exists l,
       log st' = app (log st) l
       /\ (forall k, k <> "inference_config" ->
             sys_modules st' !! k
             = (sys_modules st ∪ imported env (log st) l) !! k)
       /\ forall loader args kw e,
            In (call_method loader "exec_module" args kw, Raises e) l ->
            r = Raised e
            /\ config (self st') = config (self st)
            /\ exists spec module,
                 In (module_from_spec spec, Returns module) l
                 /\ args = [module]
                 /\ sys_modules st'
                    = <["inference_config" := module]>
                        (sys_modules st ∪ imported env (log st) l).
Proof.
  intros H. destruct st as [[sp kw cfg mdl] sm out h].
  unfold import_config in H. run_in H. repeat (case_step H; run_in H).
  all: injection H as <- <-.
  all: try match goal with
       | Hr : readout ?e ?st0 = (_, ?s) |- _ =>
           destruct (quiet_readout e st0) as (Hs & lq & Hlq & _ & Hy);
           destruct (emits_readout e st0) as (lr & Hl & Hq);
           rewrite Hr in Hs, Hy, Hl, Hlq; simpl in Hs, Hy, Hl, Hlq;
           pose proof (same_calls Hlq Hl); subst lq;
           rewrite Hs, Hy, Hl; clear Hs Hy Hl Hlq Hr
       end.
  all: simpl.
  all: do 3 (split; [reflexivity|]).
  all: eexists; split; [log_facts|].
  all: split;
    [ intros k Hk; rewrite ?insert_then_imports;
      rewrite ?lookup_insert_ne by congruence; f_equal; modules_facts |].
  all: intros loader args kw0 e0 Hin.
  all: repeat (apply in_app_or in Hin; destruct Hin as [Hin|Hin]).
  all: simpl in Hin.
  all: repeat match goal with
         | Hx : _ \/ _ |- _ => destruct Hx as [Hx|Hx]
         | Hx : False |- _ => destruct Hx
         | Hx : (_, _) = (_, _) |- _ => first [discriminate Hx | injection Hx as ? ?; subst]
         end.
  all: try match goal with
       | Hq : forallb _ ?lr = true, Hx : In _ ?lr |- _ =>
           rewrite forallb_forall in Hq; specialize (Hq _ Hx);
           discriminate Hq
       end.
  all: split; [reflexivity|]; split; [reflexivity|].
  all: do 2 eexists; split; [simpl; tauto|]; split; [reflexivity|].
  all: modules_facts.
Qed.

End ReadoutFacts.

(* ===================================================================== *)
(** ** The weights pattern *)
(* ===================================================================== *)

Module GlobFacts.

Import Posix Py Mrcnn Observations PosixFacts.

(** *** Splitting a path that was put together *)

Lemma cut_at_last_sep_append a t :
  cut_at_last_sep t = None ->
  cut_at_last_sep (a +:+ t)
  = match cut_at_last_sep a with
    | Some (h, b) => Some (h, b +:+ t)
    | None => None
    end.
Proof.
  intros Ht. induction a as [|c a IH].
  - rewrite append_nil. simpl. exact Ht.
  - rewrite append_cons. simpl. rewrite IH.
    destruct (cut_at_last_sep a) as [[h b]|]; [reflexivity|].
    destruct (Ascii.eqb c sep); reflexivity.
Qed.

Lemma cut_at_last_sep_append_sep a t :
  cut_at_last_sep t = None ->
  cut_at_last_sep (a +:+ String sep t) = Some (a +:+ String sep EmptyString, t).
Proof.
  intros Ht. induction a as [|c a IH].
  - rewrite !append_nil. simpl. now rewrite Ht.
  - rewrite !append_cons. simpl. now rewrite IH.
Qed.

(** The directory part does not depend on what follows the last
    separator. *)
Lemma os_path_split_append a t :
  cut_at_last_sep t = None ->
  os_path_split (a +:+ t)
  = (fst (os_path_split a), snd (os_path_split a) +:+ t).
Proof.
  intros Ht. unfold os_path_split. rewrite (cut_at_last_sep_append a t Ht).
  destruct (cut_at_last_sep a) as [[h b]|].
  - destruct (negb (is_empty h) && negb (all_seps h)); reflexivity.
  - reflexivity.
Qed.

Lemma all_seps_append a b : all_seps (a +:+ b) = all_seps a && all_seps b.
Proof.
  induction a as [|c a IH]; [reflexivity|].
  rewrite append_cons. simpl. rewrite IH. now rewrite andb_assoc.
Qed.

Lemma is_empty_append a b : is_empty (a +:+ b) = is_empty a && is_empty b.
Proof. destruct a; reflexivity. Qed.

Lemma rstrip_sep_empty s : rstrip_sep s = EmptyString -> all_seps s = true.
Proof.
  induction s as [|c s IH]; [reflexivity|]. simpl.
  destruct (rstrip_sep s); [|discriminate].
  destruct (Ascii.eqb c sep); [|discriminate].
  intros _. now rewrite IH.
Qed.

Lemma rstrip_sep_append_sep a :
  rstrip_sep (a +:+ String sep EmptyString) = rstrip_sep a.
Proof.
  induction a as [|c a IH]; [reflexivity|].
  rewrite append_cons. simpl. now rewrite IH.
Qed.

Lemma rstrip_sep_fixed a c :
  Ascii.eqb c sep = false ->
  rstrip_sep (a +:+ String c EmptyString) = a +:+ String c EmptyString.
Proof.
  intros Hc. induction a as [|x a IH].
  - rewrite append_nil. simpl. now rewrite Hc.
  - rewrite append_cons. simpl. rewrite IH.
    destruct a; reflexivity.
Qed.

Lemma has_magic_append a b : has_magic (a +:+ b) = has_magic a || has_magic b.
Proof.
  induction a as [|c a IH]; [reflexivity|].
  rewrite append_cons. simpl. rewrite IH. now rewrite orb_assoc.
Qed.

Lemma ends_with_sep_spec s :
  ends_with_sep s = true -> exists a, s = a +:+ String sep EmptyString.
Proof.
  induction s as [|c s IH]; [discriminate|]. simpl.
  destruct s as [|c' s'].
  - intros Hc. exists EmptyString. rewrite append_nil.
    apply Ascii.eqb_eq in Hc. now subst.
  - intros H. destruct (IH H) as [a Ha]. exists (String c a).
    rewrite append_cons. now rewrite Ha.
Qed.

Lemma ends_with_sep_append_sep a :
  ends_with_sep (a +:+ String sep EmptyString) = true.
Proof.
  induction a as [|c a IH]; [reflexivity|].
  rewrite append_cons. simpl.
  destruct (a +:+ String sep EmptyString) eqn:E; [|exact IH].
  destruct a; discriminate E.
Qed.

(** What is cut off after the last separator is empty exactly when the
    path ends with a separator (or is empty). *)
Lemma cut_head_ends_with_sep p h b :
  cut_at_last_sep p = Some (h, b) -> ends_with_sep h = true.
Proof.
  revert h b. induction p as [|c p IH]; intros h b; simpl; [discriminate|].
  destruct (cut_at_last_sep p) as [[h' b']|] eqn:E.
  - intros [= <- <-]. specialize (IH h' b' eq_refl). simpl.
    destruct h'; [discriminate IH | exact IH].
  - destruct (Ascii.eqb c sep) eqn:Hc; [|discriminate].
    intros [= <- <-]. simpl. exact Hc.
Qed.

Lemma basename_nonempty sp :
  sp <> EmptyString -> ends_with_sep sp = false ->
  is_empty (snd (os_path_split sp)) = false.
Proof.
  intros Hne Hends. unfold os_path_split.
  destruct (cut_at_last_sep sp) as [[h b]|] eqn:E.
  - assert (Hb : is_empty b = false).
    { destruct b; [|reflexivity]. exfalso.
      pose proof (cut_head_ends_with_sep sp h EmptyString E) as Hh.
      apply cut_at_last_sep_app in E. rewrite append_empty_r in E.
      subst h. congruence. }
    destruct (negb (is_empty h) && negb (all_seps h)); exact Hb.
  - simpl. destruct sp; [contradiction | reflexivity].
Qed.

Lemma basename_empty sp :
  ends_with_sep sp = true -> snd (os_path_split sp) = EmptyString.
Proof.
  intros Hends. destruct (ends_with_sep_spec sp Hends) as [a ->].
  unfold os_path_split.
  rewrite (cut_at_last_sep_append_sep a EmptyString eq_refl).
  destruct (negb (is_empty (a +:+ String sep EmptyString))
            && negb (all_seps (a +:+ String sep EmptyString))); reflexivity.
Qed.

Lemma dirname_nonempty sp :
  ends_with_sep sp = true -> is_empty (fst (os_path_split sp)) = false.
Proof.
  intros Hends. destruct (ends_with_sep_spec sp Hends) as [a ->].
  unfold os_path_split.
  rewrite (cut_at_last_sep_append_sep a EmptyString eq_refl).
  destruct (all_seps (a +:+ String sep EmptyString)) eqn:Hall.
  - rewrite andb_false_r. simpl. now rewrite is_empty_append, andb_false_r.
  - rewrite is_empty_append, andb_false_r. simpl.
    destruct (rstrip_sep (a +:+ String sep EmptyString)) eqn:Hr;
      [|reflexivity].
    apply rstrip_sep_empty in Hr. congruence.
Qed.

Lemma dirname_no_magic sp :
  has_magic sp = false -> has_magic (fst (os_path_split sp)) = false.
Proof.
  intros Hm. destruct (os_path_split_prefix sp) as [z Hz].
  rewrite Hz in Hm. rewrite has_magic_append in Hm.
  now apply orb_false_elim in Hm.
Qed.

(** *** The pattern of line 76 *)

(** save_path, "**", a separator, "*.h5" *)
Lemma weights_pattern_parts sp :
  weights_pattern sp
  = (sp +:+ "**") +:+ String sep "*.h5".
Proof. unfold weights_pattern. now rewrite append_assoc. Qed.

Lemma os_path_split_weights_pattern sp :
  os_path_split (weights_pattern sp) = (sp +:+ "**", "*.h5").
Proof.
  rewrite weights_pattern_parts. unfold os_path_split.
  rewrite (cut_at_last_sep_append_sep (sp +:+ "**") "*.h5" eq_refl).
  assert (H1 : is_empty ((sp +:+ "**") +:+ String sep EmptyString) = false).
  { rewrite is_empty_append. apply andb_false_r. }
  assert (H2 : all_seps ((sp +:+ "**") +:+ String sep EmptyString) = false).
  { rewrite !all_seps_append. simpl. now rewrite andb_false_r. }
  rewrite H1, H2. simpl. f_equal.
  rewrite rstrip_sep_append_sep.
  replace (sp +:+ "**") with ((sp +:+ "*") +:+ "*")
    by (now rewrite append_assoc).
  now apply rstrip_sep_fixed.
Qed.

Lemma has_magic_weights_pattern sp : has_magic (weights_pattern sp) = true.
Proof.
  unfold weights_pattern. rewrite has_magic_append. apply orb_true_r.
Qed.

(** One step of the search: the entries that match "*.h5" in each of the
    directories [sp**] stands for. *)
Lemma _iglob_weights_pattern fs sp n :
  _iglob (S n) fs (weights_pattern sp) true false
  = flat_map
      (fun d => map (os_path_join d) (_glob1 fs d "*.h5" false))
      (if negb (String.eqb (sp +:+ "**") (weights_pattern sp))
       then _iglob n fs (sp +:+ "**") true true
       else [sp +:+ "**"]).
Proof.
  cbn [_iglob]. rewrite os_path_split_weights_pattern.
  rewrite has_magic_weights_pattern. cbn [negb].
  rewrite is_empty_append, andb_false_r.
  rewrite has_magic_append, orb_true_r, andb_true_r.
  reflexivity.
Qed.

Lemma glob_subset fs p r c :
  In c (glob fs p r) -> In c (_iglob (S (String.length p)) fs p r false).
Proof.
  unfold glob.
  destruct (is_empty p || r && _isrecursive (first_two p)); [|auto].
  destruct (_iglob (S (String.length p)) fs p r false) as [|s rest];
    [auto|].
  destruct (is_empty s); [|auto]. intros H. now right.
Qed.

(** *** Names that match "*.h5" *)

Lemma tmatch_star ts s :
  tmatch (TStar :: ts) s = true
  <-> exists pre suf, s = app pre suf /\ tmatch ts suf = true.
Proof.
  induction s as [|c s IH].
  - simpl. rewrite orb_false_r. split.
    + intros H. now exists [], [].
    + intros (pre & suf & Hs & H). symmetry in Hs.
      apply app_eq_nil in Hs as [-> ->]. exact H.
  - change (tmatch (TStar :: ts) (c :: s))
      with (tmatch ts (c :: s) || tmatch (TStar :: ts) s).
    rewrite orb_true_iff, IH. split.
    + intros [H|(pre & suf & -> & H)].
      * now exists [], (c :: s).
      * now exists (c :: pre), suf.
    + intros (pre & suf & Hs & H). destruct pre as [|x pre].
      * left. simpl in Hs. now subst.
      * right. injection Hs as -> ->. now exists pre, suf.
Qed.

Lemma tmatch_h5 s :
  tmatch [TLit "."; TLit "h"; TLit "5"]%char s = true
  <-> s = ["."; "h"; "5"]%char.
Proof.
  split.
  - destruct s as [|a s]; cbn [tmatch]; [discriminate|].
    intros H. apply andb_prop in H as [Ha H].
    destruct s as [|b s]; [discriminate H|].
    apply andb_prop in H as [Hb H].
    destruct s as [|c s]; [discriminate H|].
    apply andb_prop in H as [Hc H].
    destruct s as [|d s]; [|discriminate H].
    apply Ascii.eqb_eq in Ha, Hb, Hc. now subst.
  - intros ->. reflexivity.
Qed.

Lemma string_of_list_ascii_app l1 l2 :
  string_of_list_ascii (app l1 l2)
  = string_of_list_ascii l1 +:+ string_of_list_ascii l2.
Proof.
  induction l1 as [|c l1 IH]; [reflexivity|].
  simpl. rewrite append_cons. now rewrite IH.
Qed.

Lemma list_ascii_of_string_append a b :
  list_ascii_of_string (a +:+ b)
  = app (list_ascii_of_string a) (list_ascii_of_string b).
Proof.
  induction a as [|c a IH]; [reflexivity|].
  rewrite append_cons. simpl. now rewrite IH.
Qed.

(** A name matches "*.h5" exactly when it ends with ".h5". *)
Lemma fnmatch_h5 name :
  fnmatch name "*.h5" = true <-> exists stem, name = stem +:+ ".h5".
Proof.
  unfold fnmatch.
  change (tokenize 0 (list_ascii_of_string "*.h5"))
    with [TStar; TLit "."%char; TLit "h"%char; TLit "5"%char].
  rewrite tmatch_star. split.
  - intros (pre & suf & Hs & H). apply tmatch_h5 in H. subst suf.
    exists (string_of_list_ascii pre).
    rewrite <- (string_of_list_ascii_of_string name), Hs.
    now rewrite string_of_list_ascii_app.
  - intros (stem & ->). exists (list_ascii_of_string stem), ["."; "h"; "5"]%char.
    split; [apply list_ascii_of_string_append | reflexivity].
Qed.

(** *** The directories the search looks into *)

Lemma append_not_shorter a t :
  t <> EmptyString -> forall u, String.eqb (a +:+ t +:+ u) a = false.
Proof.
  intros Ht u. apply String.eqb_neq. intros H.
  apply (f_equal String.length) in H. rewrite !length_append in H.
  destruct t; [contradiction|]. simpl in H. lia.
Qed.

Lemma stem_not_pattern sp :
  String.eqb (sp +:+ "**") (weights_pattern sp) = false.
Proof.
  apply String.eqb_neq. intros H. unfold weights_pattern in H.
  apply (f_equal String.length) in H. rewrite !length_append in H.
  simpl in H. lia.
Qed.

Lemma not_recursive b :
  is_empty b = false -> _isrecursive (b +:+ "**") = false.
Proof.
  intros Hb. unfold _isrecursive. apply String.eqb_neq. intros H.
  apply (f_equal String.length) in H. rewrite length_append in H.
  destruct b; [discriminate Hb|]. simpl in H. lia.
Qed.

Lemma first_two_not_recursive sp t :
  sp <> EmptyString -> has_magic sp = false ->
  _isrecursive (first_two (sp +:+ t)) = false.
Proof.
  intros Hne Hm. destruct sp as [|c r]; [contradiction|].
  simpl in Hm. apply orb_false_elim in Hm as [Hc _].
  unfold is_magic_char in Hc.
  apply orb_false_elim in Hc as [Hc _]. apply orb_false_elim in Hc as [Hc _].
  unfold _isrecursive. apply String.eqb_neq. intros H.
  rewrite append_cons in H.
  assert (Hx : c = "*"%char).
  { destruct (r +:+ t); simpl in H; congruence. }
  subst c. discriminate Hc.
Qed.

(** The pattern is never empty and, for a save_path that is not empty and
    has no wildcard, does not start with "**": [glob] returns what [_iglob]
    yields. *)
Lemma candidates_iglob fs sp :
  sp <> EmptyString -> has_magic sp = false ->
  candidates fs sp
  = flat_map (h5_entries fs)
      (_iglob (String.length (weights_pattern sp)) fs (sp +:+ "**") true true).
Proof.
  intros Hne Hm. unfold candidates, glob.
  assert (He : is_empty (weights_pattern sp) = false).
  { unfold weights_pattern. rewrite is_empty_append. apply andb_false_r. }
  assert (Hr : _isrecursive (first_two (weights_pattern sp)) = false).
  { unfold weights_pattern. now apply first_two_not_recursive. }
  rewrite He, Hr. cbn [orb andb].
  rewrite _iglob_weights_pattern, stem_not_pattern. reflexivity.
Qed.

(** The directories for a save_path without a separator at its end: the
    directories next to it whose names match its last part followed by
    "**". *)
Lemma _iglob_stem_without_sep fs sp n :
  sp <> EmptyString -> has_magic sp = false -> ends_with_sep sp = false ->
  let h := fst (os_path_split sp) in
  let b := snd (os_path_split sp) in
  _iglob (S n) fs (sp +:+ "**") true true
  = if is_empty h then _glob1 fs EmptyString (b +:+ "**") true
    else map (os_path_join h) (_glob1 fs h (b +:+ "**") true).
Proof.
  intros Hne Hm Hends h b. cbn [_iglob].
  rewrite (os_path_split_append sp "**" eq_refl). fold h b.
  rewrite has_magic_append, orb_true_r. cbn [negb].
  pose proof (basename_nonempty sp Hne Hends) as Hb. fold b in Hb.
  rewrite (not_recursive b Hb), andb_false_r.
  destruct (is_empty h); [reflexivity|].
  pose proof (dirname_no_magic sp Hm) as Hh. fold h in Hh.
  rewrite Hh, andb_false_r. rewrite has_magic_append, orb_true_r.
  simpl. now rewrite app_nil_r.
Qed.

(** The directories for a save_path with a separator at its end: the
    directory itself and the directories below it. *)
Lemma _iglob_stem_with_sep fs sp n :
  has_magic sp = false -> ends_with_sep sp = true ->
  _iglob (S n) fs (sp +:+ "**") true true
  = map (os_path_join (fst (os_path_split sp)))
      (EmptyString
       :: match resolve fs (fst (os_path_split sp)) with
          | Some d => _rlistdir true d
          | None => []
          end).
Proof.
  intros Hm Hends. cbn [_iglob].
  rewrite (os_path_split_append sp "**" eq_refl).
  rewrite (basename_empty sp Hends), append_nil.
  rewrite has_magic_append, orb_true_r. cbn [negb].
  rewrite (dirname_nonempty sp Hends).
  rewrite (dirname_no_magic sp Hm), andb_false_r.
  change (has_magic "**") with true. change (_isrecursive "**") with true.
  cbn [andb flat_map]. rewrite app_nil_r.
  unfold _glob2. now rewrite (dirname_nonempty sp Hends).
Qed.

Lemma pattern_length sp :
  String.length (weights_pattern sp) = S (String.length sp + 6).
Proof. unfold weights_pattern. rewrite length_append. simpl. lia. Qed.

(** The name of the configuration file survives the join with any
    save_path. *)
Lemma basename_config_path sp :
  os_path_basename (config_path sp) = "inference_config.py".
Proof.
  unfold config_path, os_path_join, os_path_basename.
  change (startswith "/" "inference_config.py") with false. cbv iota.
  destruct sp as [|c r] eqn:Hsp; [reflexivity|]. rewrite <- Hsp.
  replace (is_empty sp) with false by now subst.
  cbn [orb].
  destruct (ends_with_sep sp) eqn:He.
  - destruct (ends_with_sep_spec sp He) as [a ->].
    rewrite append_assoc.
    change (String sep EmptyString +:+ "inference_config.py")
      with (String sep "inference_config.py").
    now rewrite (cut_at_last_sep_append_sep a "inference_config.py" eq_refl).
  - change ("/" +:+ "inference_config.py")
      with (String sep "inference_config.py").
    now rewrite (cut_at_last_sep_append_sep sp "inference_config.py" eq_refl).
Qed.

Lemma in_firstn {A} (x : A) k l : In x (firstn k l) -> In x l.
Proof.
  revert l. induction k as [|k IH]; intros l; simpl; [intros []|].
  destruct l as [|y l]; [intros []|].
  intros [H|H]; [now left | right; now apply IH].
Qed.

End GlobFacts.

(* ===================================================================== *)
(** ** Further properties of the loader *)
(* ===================================================================== *)

Module Behaviour.

Import Posix Py Mrcnn Observations Scenarios PosixFacts PyFacts MrcnnFacts
  MrcnnRuns ReadoutFacts GlobFacts.

(** *** __init__ *)

(** X1.  [__init__] never returns: whatever the base initialiser, the file
    system and the external code do, every run of [__init__] ends in an
    exception.  (When everything before it succeeds, it is the read of
    [LEARNING_RATE] from the [None] that line 35 put in [self.config].) *)
Theorem init_always_raises super_init sp kw env st :
  exists e, fst (__init__ super_init sp kw env st) = Raised e.
Proof.
  unfold __init__, bind at 1.
  destruct (super_init sp kw env st) as [[[]|e] st1]; [|now exists e].
  unfold load_data, bind at 1.
  destruct (load_config env st1) as [[v|e] st2] eqn:Hc; [|now exists e].
  pose proof (load_config_normal env st1 v st2 Hc) as Hn. cbv zeta in Hn.
  destruct Hn as (_ & spec & module & loader & r0 & cls & c & l0 & Hn).
  destruct Hn as (-> & _).
  unfold bind at 1, set_self_config at 1.
  match goal with
  | |- context [with_self ?f st2] => set (st3 := with_self f st2)
  end.
  destruct (load_model env st3) as [r st4] eqn:Hm.
  destruct (load_model_config_none env st3 r st4 eq_refl Hm)
    as (e & l & -> & _).
  exists e. unfold bind. now rewrite Hm.
Qed.

(** *** load_model: what failing runs do *)

(** X2.  [load_model] assigns [self.model] in the runs that return and in
    no other: a run that raises leaves the instance as it was, a run that
    returns (it returns [None]) has put there what the call of the class
    returned.  No run touches [save_path], [kwargs] or [self.config], and
    the method itself writes nothing to [sys.modules]: after the run it
    holds what it held and what the external code imported during the
    calls of the run. *)
Theorem load_model_assigns_model_on_return_only env st :
  let r := fst (load_model env st) in
  let st' := snd (load_model env st) in
  (exists l,
     log st' = app (log st) l
     /\ sys_modules st' = sys_modules st ∪ imported env (log st) l)
  /\ save_path (self st') = save_path (self st)
  /\ kwargs (self st') = kwargs (self st)
  /\ config (self st') = config (self st)
  /\ (forall e, r = Raised e -> model (self st') = model (self st))
  /\ (forall v, r = Normal v ->
        v = VNone
        /\ exists cls args m,
             In (call_ cls args [], Returns m) (log st')
             /\ model (self st') = Some m).
Proof.
  cbv zeta. destruct (load_model env st) as [r st'] eqn:H. simpl.
  apply load_model_any_run in H. destruct H as (Hy & H).
  split; [exact Hy|].
  destruct r as [v|e].
  - destruct H as (-> & cls & args & m & Hs & Hin). rewrite Hs. simpl.
    do 3 (split; [reflexivity|]). split; [discriminate|].
    intros v [= <-]. split; [reflexivity|].
    exists cls, args, m. now split.
  - rewrite H. do 3 (split; [reflexivity|]). split; [reflexivity|].
    discriminate.
Qed.

(** X3.  When the search finds no weights, [load_model] raises and the
    import of the class is its only external step: nothing of the model
    library is called, the instance is as before, and [sys.modules] has
    gained what that import loaded and nothing else.  The exception is the
    import's if the import raised, and the file-not-found error of line 79
    otherwise. *)
Theorem load_model_without_weights env st :
  candidates (fs env) (save_path (self st)) = [] ->
  exists e o st',
    load_model env st = (Raised e, st')
    /\ log st'
       = app (log st)
           [(import_from "zegami_ai.mrcnn.architecture.model" "MaskRCNN", o)]
    /\ self st' = self st
    /\ sys_modules st'
       = sys_modules st
         ∪ ext_imports env (log st)
             (import_from "zegami_ai.mrcnn.architecture.model" "MaskRCNN")
    /\ (o = Raises e
        \/ exists cls,
             o = Returns cls
             /\ e = Exn "FileNotFoundError"
                      (weights_not_found (save_path (self st)))).
Proof.
  intros Hnil.
  destruct (ext env (log st)
              (import_from "zegami_ai.mrcnn.architecture.model" "MaskRCNN"))
    as [cls|e] eqn:Hi.
  - rewrite (load_model_after_import env st cls Hi), Hnil.
    unfold bind. rewrite select_weights_empty.
    do 3 eexists. split; [reflexivity|]. simpl.
    repeat split. right. now exists cls.
  - unfold load_model, bind, ext_call. rewrite Hi. simpl.
    do 3 eexists. split; [reflexivity|]. simpl.
    repeat split. now left.
Qed.

Lemma load_model_without_weights_witness :
  candidates (fs (env_of fs_empty library)) (save_path (self (fresh "/m" ∅)))
  = []
  /\ exists e st',
       load_model (env_of fs_empty library) (fresh "/m" ∅) = (Raised e, st')
       /\ log st'
          = [(import_from "zegami_ai.mrcnn.architecture.model" "MaskRCNN",
              Returns (VRef 1))].
Proof.
  assert (Hc : candidates (fs (env_of fs_empty library))
                 (save_path (self (fresh "/m" ∅))) = [])
    by (vm_compute; reflexivity).
  split; [exact Hc|].
  destruct (load_model_without_weights _ _ Hc)
    as (e & o & st' & H & Hl & _).
  exists e, st'. split; [exact H|].
  assert (Ho : log (snd (load_model (env_of fs_empty library) (fresh "/m" ∅)))
               = [(import_from "zegami_ai.mrcnn.architecture.model" "MaskRCNN",
                   Returns (VRef 1))]) by (vm_compute; reflexivity).
  rewrite H in Ho. exact Ho.
Defined.

(** X4.  Called on an instance that has no [config] attribute (before any
    [load_config]), [load_model] raises without calling anything of the
    model library; when the class was imported, weights were found and the
    truth test of line 92 came out (it does for every value of the
    interpreter; an object given as [use_mrcnn_exclusion] is asked and may
    raise), the exception is the [AttributeError] for the missing
    attribute. *)
Theorem load_model_before_load_config env st :
  config (self st) = None ->
  exists e l,
    fst (load_model env st) = Raised e
    /\ log (snd (load_model env st)) = app (log st) l
    /\ api_calls l = []
    /\ (forall cls,
          In (import_from "zegami_ai.mrcnn.architecture.model" "MaskRCNN",
              Returns cls) l ->
          candidates (fs env) (save_path (self st)) <> [] ->
          (forall u a, In (bool_ u, a) l -> exists b, a = Returns (VBool b)) ->
          e = Exn "AttributeError" (no_attribute "MrcnnTrainedModel" "config")).
Proof.
  intros Hc. destruct (load_model env st) as [r st'] eqn:H.
  destruct (load_model_no_config env st r st' Hc H) as (e & l & -> & Hl & Hr).
  exists e, l. simpl. split; [reflexivity|]. split; [exact Hl | exact Hr].
Qed.

Lemma load_model_before_load_config_witness :
  config (self st_fresh) = None
  /\ fst (load_model env_ok st_fresh)
     = Raised (Exn "AttributeError"
                 (no_attribute "MrcnnTrainedModel" "config")).
Proof.
  assert (Hc : config (self st_fresh) = None) by reflexivity.
  split; [exact Hc|].
  destruct (load_model_before_load_config env_ok st_fresh Hc)
    as (e & l & He & Hl & _ & Hx).
  assert (Hlog : log (snd (load_model env_ok st_fresh))
                 = [(import_from "zegami_ai.mrcnn.architecture.model"
                       "MaskRCNN", Returns (VRef 1))])
    by (vm_compute; reflexivity).
  rewrite Hlog in Hl. simpl in Hl.
  rewrite He. f_equal. apply (Hx (VRef 1)).
  - rewrite <- Hl. simpl. tauto.
  - vm_compute. discriminate.
  - rewrite <- Hl. intros u a [Hin|[]]. discriminate Hin.
Defined.

(** X15.  The truth test of line 92 comes before the model library is
    used: when [use_mrcnn_exclusion] is an object and its truth test raises
    (as that of a numpy array with several elements does), [load_model]
    raises that exception, nothing of the library has been called and the
    instance is as before.  The only value whose truth is tested is
    [use_mrcnn_exclusion]. *)
Theorem load_model_truth_test_raises env st l u e :
  log (snd (load_model env st)) = app (log st) l ->
  In (bool_ u, Raises e) l ->
  u = use_mrcnn_exclusion (kwargs (self st))
  /\ truth_value u = None
  /\ fst (load_model env st) = Raised e
  /\ api_calls l = []
  /\ self (snd (load_model env st)) = self st.
Proof.
  destruct (load_model env st) as [r st'] eqn:H. simpl.
  destruct st as [[sp kw cfg mdl] sm out h].
  unfold load_model, select_weights, build_model in H.
  run_in H. repeat (case_step H; run_in H).
  all: injection H as <- <-; simpl; intros Hl Hin.
  all: rewrite <- ?app_assoc in Hl; simpl in Hl.
  all: try match type of Hl with
           | ?x = _ => is_var x; rewrite <- (app_nil_r x) in Hl at 1
           end.
  all: apply app_inv_head in Hl; subst l; simpl in Hin.
  all: repeat match goal with
         | Hx : _ \/ _ |- _ => destruct Hx as [Hx|Hx]
         | Hx : False |- _ => destruct Hx
         | Hx : (_, _) = (_, _) |- _ =>
             first [discriminate Hx | injection Hx as ? ?; subst]
         end.
  all: repeat split; try reflexivity; assumption.
Qed.

Lemma load_model_truth_test_raises_witness :
  log (snd (load_model env_ok st_array))
  = app (log st_array)
      [ (import_from "zegami_ai.mrcnn.architecture.model" "MaskRCNN",
         Returns (VRef 1));
        (bool_ (VRef 14),
         Raises (Exn "ValueError" "The truth value of an array is ambiguous")) ]
  /\ fst (load_model env_ok st_array)
     = Raised (Exn "ValueError" "The truth value of an array is ambiguous")
  /\ self (snd (load_model env_ok st_array)) = self st_array.
Proof.
  assert (Hl : log (snd (load_model env_ok st_array))
               = app (log st_array)
                   [ (import_from "zegami_ai.mrcnn.architecture.model"
                        "MaskRCNN", Returns (VRef 1));
                     (bool_ (VRef 14),
                      Raises (Exn "ValueError"
                                "The truth value of an array is ambiguous")) ])
    by (vm_compute; reflexivity).
  split; [exact Hl|].
  destruct (load_model_truth_test_raises env_ok st_array _ (VRef 14)
              (Exn "ValueError" "The truth value of an array is ambiguous") Hl)
    as (_ & _ & Hr & _ & Hs); [simpl; tauto|].
  split; [exact Hr | exact Hs].
Defined.

(** *** load_config followed by load_model *)

(** X5.  The two methods called one after the other, without the
    assignments of [__init__]: when both return, the configuration that
    [load_config] instantiated is the one the model class is called with and
    the learning rate and momentum are read from, and the instance ends
    with that configuration in [self.config], the model in [self.model] and
    the configuration module in [sys.modules], next to what was there and
    what the external code imported. *)
Theorem load_config_then_load_model env st v1 st1 v2 st2 :
  load_config env st = (Normal v1, st1) ->
  load_model env st1 = (Normal v2, st2) ->
  exists spec module icls c cls m lr lm r l,
    In (module_from_spec spec, Returns module) (log st1)
    /\ In (call_ icls [] [], Returns c) (log st1)
    /\ In (call_ cls [VStr "inference"; c; VStr "."] [], Returns m) (log st2)
    /\ In (getattr c "LEARNING_RATE", Returns lr) (log st2)
    /\ In (getattr c "LEARNING_MOMENTUM", Returns lm) (log st2)
    /\ In (call_method m "compile" [lr; lm] [], Returns r) (log st2)
    /\ config (self st2) = Some c
    /\ model (self st2) = Some m
    /\ save_path (self st2) = save_path (self st)
    /\ kwargs (self st2) = kwargs (self st)
    /\ log st2 = app (log st) l
    /\ sys_modules st2
       = <["inference_config" := module]>
           (sys_modules st ∪ imported env (log st) l).
Proof.
  intros H1 H2.
  apply load_config_normal in H1. cbv zeta in H1.
  destruct H1 as (_ & spec & module & loader & r0 & icls & c & l1 & H1).
  destruct H1 as (_ & Hl1 & _ & Hs1 & Hy1).
  apply load_model_normal in H2.
  destruct H2 as (cls & c' & m & r1 & lr & lm & r2 & found & lt & H2).
  cbv zeta in H2. destruct H2 as (_ & _ & Hc & _ & _ & Hl2 & Hs2 & Hy2).
  rewrite Hs1 in Hc. simpl in Hc. injection Hc as <-.
  exists spec, module, icls, c, cls, m, lr, lm, r2. eexists.
  rewrite Hs2, Hs1.
  do 2 (split;
        [ rewrite Hl1; apply in_or_app; right; apply in_or_app; left;
          unfold config_calls; simpl; tauto |]).
  do 4 (split; [rewrite Hl2; apply in_or_app; right; right; apply in_or_app;
                right; unfold model_calls; simpl; tauto|]).
  do 4 (split; [reflexivity|]).
  split.
  - rewrite Hl2, Hl1, <- app_assoc. reflexivity.
  - rewrite Hy2, Hy1, Hl1, insert_then_imports.
    rewrite <- (assoc_L (∪)), <- imported_app. reflexivity.
Qed.

Lemma load_config_then_load_model_witness :
  load_config env_ok st_fresh
  = (Normal VNone, snd (load_config env_ok st_fresh))
  /\ load_model env_ok (snd (load_config env_ok st_fresh))
     = (Normal VNone,
        snd (load_model env_ok (snd (load_config env_ok st_fresh))))
  /\ exists c m,
       config (self (snd (load_model env_ok
                            (snd (load_config env_ok st_fresh))))) = Some c
       /\ model (self (snd (load_model env_ok
                              (snd (load_config env_ok st_fresh))))) = Some m.
Proof.
  assert (H1 : load_config env_ok st_fresh
               = (Normal VNone, snd (load_config env_ok st_fresh)))
    by (vm_compute; reflexivity).
  assert (H2 : load_model env_ok (snd (load_config env_ok st_fresh))
               = (Normal VNone,
                  snd (load_model env_ok (snd (load_config env_ok st_fresh)))))
    by (vm_compute; reflexivity).
  split; [exact H1|]. split; [exact H2|].
  destruct (load_config_then_load_model _ _ _ _ _ _ H1 H2)
    as (spec & module & icls & c & cls & m & lr & lm & r & l
        & _ & _ & _ & _ & _ & _ & Hc & Hm & _).
  exists c, m. split; [exact Hc | exact Hm].
Defined.

(** *** load_config: the readout and the failing runs *)

(** X6.  The readout of lines 60-63 only looks: it writes no attribute
    and nothing in [sys.modules] (which holds afterwards what it held and
    what the external code imported during the calls), and its external
    calls are [dir], reads of attributes, formatting (and, for a name that
    is not a string, [startswith] and the truth test of its answer).  It
    reads no attribute whose name starts with two underscores and it calls
    no class or function. *)
Theorem readout_only_reads_plain_attributes env st :
  let st' := snd (readout env st) in
  self st' = self st
  /\ exists l,
       log st' = app (log st) l
       /\ sys_modules st' = sys_modules st ∪ imported env (log st) l
       /\ (forall c a, In (c, a) l -> readout_call c = true)
       /\ (forall o name a,
             In (getattr o name, a) l -> startswith "__" name = false)
       /\ (forall f args kw a, ~ In (call_ f args kw, a) l).
Proof.
  cbv zeta.
  destruct (quiet_readout env st) as (Hs & lq & Hlq & _ & Hy).
  destruct (emits_readout env st) as (l & Hl & Hq).
  pose proof (same_calls Hlq Hl). subst lq.
  split; [exact Hs|].
  exists l. split; [exact Hl|]. split; [exact Hy|].
  rewrite forallb_forall in Hq.
  assert (Hall : forall c a, In (c, a) l -> readout_call c = true).
  { intros c a Hin. exact (Hq (c, a) Hin). }
  split; [exact Hall|]. split.
  - intros o name a Hin. specialize (Hall _ _ Hin).
    cbn [readout_call] in Hall.
    destruct (startswith "__" name); [discriminate Hall | reflexivity].
  - intros f args kw0 a Hin. specialize (Hall _ _ Hin). discriminate Hall.
Qed.

(** X7.  Whatever happens in it, [load_config] leaves [save_path],
    [kwargs] and [self.model] as they were, and of [sys.modules] the method
    itself can change the entry 'inference_config' only: every other entry
    is, after the run, what it was before or, if there was none, what the
    external code imported during the calls of the run. *)
Theorem load_config_writes_config_and_module_entry_only env st :
  let st' := snd (load_config env st) in
  save_path (self st') = save_path (self st)
  /\ kwargs (self st') = kwargs (self st)
  /\ model (self st') = model (self st)
  /\ exists l,
       log st' = app (log st) l
       /\ forall k, k <> "inference_config" ->
            sys_modules st' !! k
            = (sys_modules st ∪ imported env (log st) l) !! k.
Proof.
  cbv zeta.
  destruct (os_path_exists (fs env) (config_path (save_path (self st))))
    eqn:He.
  - rewrite (load_config_exists env st He).
    match goal with
    | |- context [import_config ?fp env ?st1] =>
        destruct (import_config fp env st1) as [r st'] eqn:H;
        destruct (import_config_any_run fp env st1 r st' H)
          as (H1 & H2 & H3 & l & Hl & H4 & _)
    end.
    simpl in *. do 3 (split; [assumption|]).
    exists l. split; assumption.
  - rewrite (load_config_missing env st He). simpl.
    do 3 (split; [reflexivity|]).
    exists []. split; [now rewrite app_nil_r|].
    intros k _. simpl. now rewrite (right_id_L ∅ (∪)).
Qed.

(** X8.  When executing the configuration file raises, [load_config]
    raises that exception and [self.config] is not assigned, but the module
    object that line 54 registered before the execution stays in
    [sys.modules] under 'inference_config'. *)
Theorem load_config_failed_execution_leaves_module env st :
  exists l,
    log (snd (load_config env st)) = app (log st) l
    /\ forall loader args kw e,
         In (call_method loader "exec_module" args kw, Raises e) l ->
         fst (load_config env st) = Raised e
         /\ config (self (snd (load_config env st))) = config (self st)
         /\ exists spec module,
              In (module_from_spec spec, Returns module) l
              /\ args = [module]
              /\ sys_modules (snd (load_config env st)) !! "inference_config"
                 = Some module.
Proof.
  destruct (os_path_exists (fs env) (config_path (save_path (self st))))
    eqn:He.
  - rewrite (load_config_exists env st He).
    match goal with
    | |- context [import_config ?fp env ?st1] =>
        destruct (import_config fp env st1) as [r st'] eqn:H;
        destruct (import_config_any_run fp env st1 r st' H)
          as (_ & _ & _ & l & Hl & _ & Hx)
    end.
    exists l. simpl in *. split; [exact Hl|].
    intros loader args kw0 e Hin.
    destruct (Hx loader args kw0 e Hin)
      as (Hr & Hc & spec & module & Hm & Ha & Hy).
    split; [exact Hr|]. split; [exact Hc|].
    exists spec, module. split; [exact Hm|]. split; [exact Ha|].
    rewrite Hy. apply lookup_insert_eq.
  - rewrite (load_config_missing env st He). simpl.
    exists []. split; [now rewrite app_nil_r|]. intros ? ? ? ? [].
Qed.

(** With a configuration file whose execution raises a [SyntaxError]: the
    error comes out, [self.config] is not there, the module is. *)
Example load_config_failed_execution_example :
  let run := load_config (env_of fs_models broken_config) st_fresh in
  fst run = Raised (Exn "SyntaxError" "invalid syntax")
  /\ config (self (snd run)) = None
  /\ sys_modules (snd run) !! "inference_config" = Some (VRef 3)
  /\ In (call_method (VRef 4) "exec_module" [VRef 3] [],
         Raises (Exn "SyntaxError" "invalid syntax")) (log (snd run)).
Proof.
  cbv zeta. repeat split; try (vm_compute; reflexivity).
  assert (H : log (snd (load_config (env_of fs_models broken_config) st_fresh))
              = [ (spec_from_file_location "inference_config"
                     "/models/run/inference_config.py", Returns (VRef 2));
                  (module_from_spec (VRef 2), Returns (VRef 3));
                  (getattr (VRef 2) "loader", Returns (VRef 4));
                  (call_method (VRef 4) "exec_module" [VRef 3] [],
                   Raises (Exn "SyntaxError" "invalid syntax")) ])
    by (vm_compute; reflexivity).
  rewrite H. simpl. tauto.
Qed.

(** X9.  [load_config] called again on the same instance replaces what
    the first call left: after two runs that return, the entry
    'inference_config' of [sys.modules] holds the module of the second run,
    the other entries are those that were there and those the external code
    imported during the two runs, and [self.config] is the instance the
    second run made. *)
Theorem load_config_twice env st v1 st1 v2 st2 :
  load_config env st = (Normal v1, st1) ->
  load_config env st1 = (Normal v2, st2) ->
  exists l1 l2 spec2 module2 cls2 c2,
    log st1 = app (log st) l1
    /\ log st2 = app (log st1) l2
    /\ In (module_from_spec spec2, Returns module2) l2
    /\ In (call_ cls2 [] [], Returns c2) l2
    /\ sys_modules st2
       = <["inference_config" := module2]>
           (sys_modules st ∪ imported env (log st) (app l1 l2))
    /\ self st2 = with_config (self st) c2.
Proof.
  intros H1 H2.
  apply load_config_normal in H1. cbv zeta in H1.
  destruct H1 as (_ & spec1 & module1 & loader1 & r1 & cls1 & c1 & l1 & H1).
  destruct H1 as (_ & Hl1 & _ & Hs1 & Hy1).
  apply load_config_normal in H2. cbv zeta in H2.
  destruct H2 as (_ & spec2 & module2 & loader2 & r2 & cls2 & c2 & l2 & H2).
  destruct H2 as (_ & Hl2 & _ & Hs2 & Hy2).
  eexists. eexists. exists spec2, module2, cls2, c2.
  split; [exact Hl1|]. split; [exact Hl2|].
  split; [apply in_or_app; left; unfold config_calls; simpl; tauto|].
  split; [apply in_or_app; left; unfold config_calls; simpl; tauto|].
  split.
  - rewrite Hy2, Hy1, Hl1, insert_then_imports, insert_insert_eq.
    rewrite <- (assoc_L (∪)), <- imported_app. reflexivity.
  - rewrite Hs2, Hs1. reflexivity.
Qed.

Lemma load_config_twice_witness :
  load_config env_ok st_fresh
  = (Normal VNone, snd (load_config env_ok st_fresh))
  /\ load_config env_ok (snd (load_config env_ok st_fresh))
     = (Normal VNone,
        snd (load_config env_ok (snd (load_config env_ok st_fresh))))
  /\ exists module2 c2 l,
       sys_modules (snd (load_config env_ok (snd (load_config env_ok st_fresh))))
       = <["inference_config" := module2]>
           (sys_modules st_fresh ∪ imported env_ok (log st_fresh) l)
       /\ self (snd (load_config env_ok (snd (load_config env_ok st_fresh))))
          = with_config (self st_fresh) c2.
Proof.
  assert (H1 : load_config env_ok st_fresh
               = (Normal VNone, snd (load_config env_ok st_fresh)))
    by (vm_compute; reflexivity).
  assert (H2 : load_config env_ok (snd (load_config env_ok st_fresh))
               = (Normal VNone,
                  snd (load_config env_ok (snd (load_config env_ok st_fresh)))))
    by (vm_compute; reflexivity).
  split; [exact H1|]. split; [exact H2|].
  destruct (load_config_twice _ _ _ _ _ _ H1 H2)
    as (l1 & l2 & spec2 & module2 & cls2 & c2 & _ & _ & _ & _ & Hy & Hs).
  exists module2, c2, (app l1 l2). split; [exact Hy | exact Hs].
Defined.

(** X14.  Of the keyword arguments, [load_model] looks at
    [use_mrcnn_exclusion] and at nothing else, and of a value of the
    interpreter it looks at the truth only: on an instance that differs
    only in its keyword arguments, and has there the same
    [use_mrcnn_exclusion] or one of the same truth, it makes the same run
    (the same result, the same external calls with the same answers, the
    same output, the same [self.model], the same [sys.modules]). *)
Theorem load_model_ignores_other_kwargs env st kw' :
  same_flag (use_mrcnn_exclusion kw')
    (use_mrcnn_exclusion (kwargs (self st))) ->
  let st2 :=
    {| self := {| save_path := save_path (self st); kwargs := kw';
                  config := config (self st); model := model (self st) |};
       sys_modules := sys_modules st; stdout := stdout st; log := log st |} in
  fst (load_model env st2) = fst (load_model env st)
  /\ log (snd (load_model env st2)) = log (snd (load_model env st))
  /\ stdout (snd (load_model env st2)) = stdout (snd (load_model env st))
  /\ sys_modules (snd (load_model env st2))
     = sys_modules (snd (load_model env st))
  /\ model (self (snd (load_model env st2)))
     = model (self (snd (load_model env st)))
  /\ kwargs (self (snd (load_model env st2))) = kw'.
Proof.
  intros Hflag st2.
  assert (Hst : same_but_kwargs st st2) by (unfold st2; now repeat split).
  destruct (ignores_kwargs_load_model env st st2 Hst)
    as (Hr & _ & _ & Hm & Hy & Ho & Hl & _).
  do 5 (split; [assumption|]).
  destruct (load_model env st2) as [r st'] eqn:H. simpl.
  apply load_model_any_run in H. destruct H as (_ & H).
  destruct r as [v|e].
  - destruct H as (_ & cls & args & m & -> & _). reflexivity.
  - rewrite H. reflexivity.
Qed.

Lemma load_model_ignores_other_kwargs_witness :
  (use_mrcnn_exclusion (<["verbose" := VBool true]> ∅)
   = use_mrcnn_exclusion (kwargs (self st_configured))
   /\ fst (load_model env_ok
             (configured "/models/run/" (<["verbose" := VBool true]> ∅) (VRef 6)))
      = fst (load_model env_ok st_configured)
   /\ log (snd (load_model env_ok
                  (configured "/models/run/" (<["verbose" := VBool true]> ∅)
                     (VRef 6))))
      = log (snd (load_model env_ok st_configured)))
  /\ (truth_value (use_mrcnn_exclusion (<["use_mrcnn_exclusion" := VInt 1]> ∅))
      = Some true
      /\ truth_value (use_mrcnn_exclusion (kwargs (self st_exclusion)))
         = Some true
      /\ log (snd (load_model env_ok
                     (configured "/models/run/"
                        (<["use_mrcnn_exclusion" := VInt 1]> ∅) (VRef 6))))
         = log (snd (load_model env_ok st_exclusion))).
Proof.
  split.
  - assert (H : use_mrcnn_exclusion (<["verbose" := VBool true]> ∅)
                = use_mrcnn_exclusion (kwargs (self st_configured)))
      by (vm_compute; reflexivity).
    split; [exact H|].
    destruct (load_model_ignores_other_kwargs env_ok st_configured
                (<["verbose" := VBool true]> ∅) (or_introl H))
      as (H1 & H2 & _).
    split; [exact H1 | exact H2].
  - assert (H1 : truth_value
                   (use_mrcnn_exclusion (<["use_mrcnn_exclusion" := VInt 1]> ∅))
                 = Some true) by (vm_compute; reflexivity).
    assert (H2 : truth_value (use_mrcnn_exclusion (kwargs (self st_exclusion)))
                 = Some true) by (vm_compute; reflexivity).
    split; [exact H1|]. split; [exact H2|].
    destruct (load_model_ignores_other_kwargs env_ok st_exclusion
                (<["use_mrcnn_exclusion" := VInt 1]> ∅)
                (or_intror (ex_intro _ true (conj H1 H2))))
      as (_ & H & _).
    exact H.
Defined.

(** *** The weights search *)

(** X10.  Whatever the file system and save_path are, every candidate of
    the search is an entry that its directory lists, whose name does not
    start with a dot and ends with ".h5": hidden files are never found, and
    nothing but the name is looked at (an entry of that name is a candidate
    whether it is a file or a directory). *)
Theorem candidates_are_plain_h5_entries fs sp c :
  In c (candidates fs sp) ->
  exists d name stem,
    c = os_path_join d name
    /\ In name (_listdir fs d false)
    /\ _ishidden name = false
    /\ name = stem +:+ ".h5".
Proof.
  intros H. unfold candidates in H. apply glob_subset in H.
  rewrite _iglob_weights_pattern in H.
  apply in_flat_map in H as (d & _ & H).
  apply in_map_iff in H as (name & <- & H).
  unfold _glob1 in H. change (_ishidden "*.h5") with false in H. cbv iota in H.
  apply List.filter_In in H as [H Hmatch].
  apply List.filter_In in H as [Hlist Hhid].
  apply fnmatch_h5 in Hmatch as [stem Hstem].
  exists d, name, stem. repeat split; try assumption.
  now destruct (_ishidden name).
Qed.

Lemma candidates_are_plain_h5_entries_witness :
  In "/models/run/sub/w.h5" (candidates fs_models "/models/run/")
  /\ exists d name stem,
       "/models/run/sub/w.h5" = os_path_join d name
       /\ In name (_listdir fs_models d false)
       /\ _ishidden name = false
       /\ name = stem +:+ ".h5".
Proof.
  assert (H : In "/models/run/sub/w.h5" (candidates fs_models "/models/run/")).
  { assert (Hc : candidates fs_models "/models/run/"
                 = ["/models/run/top.h5"; "/models/run/sub/w.h5"])
      by (vm_compute; reflexivity).
    rewrite Hc. simpl. tauto. }
  split; [exact H|].
  exact (candidates_are_plain_h5_entries _ _ _ H).
Defined.

(** X11.  For a save_path that is not empty, has no wildcard character and
    does not end with a separator, the search is not recursive.  With [h]
    the directory part and [b] the last part of save_path, the candidates
    are the "*.h5" entries directly inside the directories of [h] whose
    names match [b] followed by "**": save_path itself and every directory
    next to it whose name starts the same way, and nothing deeper. *)
Theorem search_without_separator_is_one_level fs sp :
  sp <> EmptyString ->
  has_magic sp = false ->
  ends_with_sep sp = false ->
  let h := fst (os_path_split sp) in
  let b := snd (os_path_split sp) in
  candidates fs sp
  = flat_map (h5_entries fs)
      (if is_empty h then _glob1 fs EmptyString (b +:+ "**") true
       else map (os_path_join h) (_glob1 fs h (b +:+ "**") true)).
Proof.
  intros Hne Hm Hends h b.
  rewrite (candidates_iglob fs sp Hne Hm), pattern_length.
  now rewrite (_iglob_stem_without_sep fs sp _ Hne Hm Hends).
Qed.

Lemma search_without_separator_is_one_level_witness :
  "/models/run" <> EmptyString
  /\ has_magic "/models/run" = false
  /\ ends_with_sep "/models/run" = false
  /\ candidates fs_models "/models/run"
     = flat_map (h5_entries fs_models)
         (if is_empty (fst (os_path_split "/models/run"))
          then _glob1 fs_models EmptyString
                 (snd (os_path_split "/models/run") +:+ "**") true
          else map (os_path_join (fst (os_path_split "/models/run")))
                 (_glob1 fs_models (fst (os_path_split "/models/run"))
                    (snd (os_path_split "/models/run") +:+ "**") true)).
Proof.
  assert (H1 : "/models/run" <> EmptyString) by discriminate.
  assert (H2 : has_magic "/models/run" = false) by reflexivity.
  assert (H3 : ends_with_sep "/models/run" = false) by reflexivity.
  split; [exact H1|]. split; [exact H2|]. split; [exact H3|].
  exact (search_without_separator_is_one_level fs_models "/models/run"
           H1 H2 H3).
Defined.

(** X12.  For a save_path that has no wildcard character and ends with a
    separator, the search is recursive.  With [h] save_path without the
    separators at its end, the candidates are the "*.h5" entries of [h]
    itself, followed by those of every directory below [h] that is reached
    through directories whose names do not start with a dot, in the order
    in which the directories are listed. *)
Theorem search_with_separator_is_recursive fs sp :
  has_magic sp = false ->
  ends_with_sep sp = true ->
  let h := fst (os_path_split sp) in
  candidates fs sp
  = flat_map (h5_entries fs)
      (map (os_path_join h)
         (EmptyString
          :: match resolve fs h with
             | Some d => _rlistdir true d
             | None => []
             end)).
Proof.
  intros Hm Hends h.
  assert (Hne : sp <> EmptyString) by (intros ->; discriminate Hends).
  rewrite (candidates_iglob fs sp Hne Hm), pattern_length.
  now rewrite (_iglob_stem_with_sep fs sp _ Hm Hends).
Qed.

Lemma search_with_separator_is_recursive_witness :
  has_magic "/models/run/" = false
  /\ ends_with_sep "/models/run/" = true
  /\ candidates fs_models "/models/run/"
     = flat_map (h5_entries fs_models)
         (map (os_path_join (fst (os_path_split "/models/run/")))
            (EmptyString
             :: match resolve fs_models (fst (os_path_split "/models/run/")) with
                | Some d => _rlistdir true d
                | None => []
                end)).
Proof.
  assert (H1 : has_magic "/models/run/" = false) by reflexivity.
  assert (H2 : ends_with_sep "/models/run/" = true) by reflexivity.
  split; [exact H1|]. split; [exact H2|].
  exact (search_with_separator_is_recursive fs_models "/models/run/" H1 H2).
Defined.

(** *** The configuration file *)

(** X13.  Whatever save_path is, the file [load_config] checks and imports
    is the entry named inference_config.py of save_path: the last part of
    its path is that name, and the only spec [load_config] ever asks for is
    the one of this path, under the module name 'inference_config'. *)
Theorem load_config_imports_inference_config_py env st :
  let fp := config_path (save_path (self st)) in
  os_path_basename fp = "inference_config.py"
  /\ forall l name location a,
       log (snd (load_config env st)) = app (log st) l ->
       In (spec_from_file_location name location, a) l ->
       name = "inference_config" /\ location = fp.
Proof.
  intros fp. split; [apply basename_config_path|].
  intros l name location a Hl Hin.
  destruct (os_path_exists (fs env) fp) eqn:He.
  - unfold fp in He. rewrite (load_config_exists env st He) in Hl.
    match type of Hl with
    | context [import_config ?fp0 env ?st1] =>
        destruct (import_config fp0 env st1) as [r st'] eqn:H;
        destruct (import_config_loads fp0 env st1 r st' H)
          as (l' & spec & cls & k & Hl' & Hloads)
    end.
    simpl in Hl, Hl'. rewrite Hl' in Hl. apply app_inv_head in Hl. subst l'.
    assert (Hx : In (spec_from_file_location name location) (loads l)).
    { unfold loads. apply List.filter_In. split; [|reflexivity].
      apply in_map_iff. now exists (spec_from_file_location name location, a). }
    rewrite Hloads in Hx. apply in_firstn in Hx. simpl in Hx.
    destruct Hx as [Hx|[Hx|[Hx|[]]]]; try discriminate Hx.
    injection Hx as <- <-. now split.
  - unfold fp in He. rewrite (load_config_missing env st He) in Hl.
    simpl in Hl. rewrite <- (app_nil_r (log st)) in Hl at 1.
    apply app_inv_head in Hl. subst l. destruct Hin.
Qed.

End Behaviour.
